(** * devicegen: a shallow embedding of [device_generator.py]

    The development follows the layout of the Python module:

    - Python text ([str]) is a sequence of Unicode code points; the
      identifier is hashed through its UTF-8 encoding, so the encoder is
      part of the model and fails on lone surrogates as CPython does.
    - [hashlib.sha1] is the FIPS 180-4 function, written out over 32-bit
      words kept in [Z] with the wrap-around explicit.
    - Class attributes of the five generator classes are the mutable
      state; every method takes the state of its class and returns the
      outcome together with the state it leaves behind, also when it
      raises.
    - The parsed data file is typed the way the code consumes it: flat
      lists of strings, the two nested iOS shapes, and for [lang_packs]
      a list of arbitrary JSON entries, since the loader tests each
      entry with [isinstance(lp, str)]. *)

From Stdlib Require Import String Ascii ZArith List Bool Lia.
Import ListNotations.
Local Open Scope Z_scope.

(** ** Python values used by the module *)

(** A Python [str]: its code points. *)
Definition str := list Z.

(** A Python [bytes] object: values in [0, 256). *)
Definition bytes := list Z.

(** ASCII literals of the source, as code points. *)
Definition py (s : string) : str :=
  map (fun a => Z.of_N (N_of_ascii a)) (list_ascii_of_string s).

Definition str_eqb (a b : str) : bool :=
  if list_eq_dec Z.eq_dec a b then true else false.

(** Exceptions the module can raise. *)
Inductive exn : Type :=
| FileNotFoundError
| JSONDecodeError
| ValueError (msg : str)
| AttributeError
| UnicodeEncodeError.

Inductive result (A : Type) : Type :=
| Ok (a : A)
| Raise (e : exn).
Arguments Ok {A} a.
Arguments Raise {A} e.

Definition bind {A B} (r : result A) (k : A -> result B) : result B :=
  match r with
  | Ok a => k a
  | Raise e => Raise e
  end.

Notation "'do' x <- r ; k" := (bind r (fun x => k))
  (at level 10, x name, r at level 100, k at level 200).

(** ** [str.encode("utf-8")] *)
Module UTF8.

Definition is_surrogate (c : Z) : bool := (0xD800 <=? c) && (c <=? 0xDFFF).

Definition cont (c : Z) (shift : Z) : Z :=
  Z.lor 0x80 (Z.land (Z.shiftr c shift) 0x3F).

(** One code point; [None] is CPython's UnicodeEncodeError (a surrogate,
    or a value that is no code point at all). *)
Definition encode_char (c : Z) : option bytes :=
  if c <? 0 then None
  else if c <? 0x80 then Some [c]
  else if c <? 0x800 then
    Some [Z.lor 0xC0 (Z.shiftr c 6); cont c 0]
  else if c <? 0x10000 then
    if is_surrogate c then None
    else Some [Z.lor 0xE0 (Z.shiftr c 12); cont c 6; cont c 0]
  else if c <? 0x110000 then
    Some [Z.lor 0xF0 (Z.shiftr c 18); cont c 12; cont c 6; cont c 0]
  else None.

Fixpoint encode_opt (s : str) : option bytes :=
  match s with
  | [] => Some []
  | c :: s' =>
      match encode_char c, encode_opt s' with
      | Some b, Some bs => Some (b ++ bs)
      | _, _ => None
      end
  end.

Definition encode (s : str) : result bytes :=
  match encode_opt s with
  | Some b => Ok b
  | None => Raise UnicodeEncodeError
  end.

End UTF8.

(** ** [hashlib.sha1] (FIPS 180-4, section 6.1) *)
Module SHA1.

Definition mask32 : Z := 0xFFFFFFFF.
Definition add32 (x y : Z) : Z := (x + y) mod 2 ^ 32.
Definition not32 (x : Z) : Z := Z.lxor x mask32.
Definition rotl (n x : Z) : Z :=
  Z.lor (Z.shiftl x n mod 2 ^ 32) (Z.shiftr x (32 - n)).

Definition f (t : nat) (b c d : Z) : Z :=
  if (t <? 20)%nat then Z.lor (Z.land b c) (Z.land (not32 b) d)
  else if (t <? 40)%nat then Z.lxor (Z.lxor b c) d
  else if (t <? 60)%nat then
    Z.lor (Z.lor (Z.land b c) (Z.land b d)) (Z.land c d)
  else Z.lxor (Z.lxor b c) d.

Definition K (t : nat) : Z :=
  if (t <? 20)%nat then 0x5A827999
  else if (t <? 40)%nat then 0x6ED9EBA1
  else if (t <? 60)%nat then 0x8F1BBCDC
  else 0xCA62C1D6.

Definition H0 : list Z :=
  [0x67452301; 0xEFCDAB89; 0x98BADCFE; 0x10325476; 0xC3D2E1F0].

(** Big-endian bytes of a value, [n] of them. *)
Fixpoint be_bytes (n : nat) (x : Z) : bytes :=
  match n with
  | O => []
  | S n' => (Z.shiftr x (8 * Z.of_nat n') mod 256) :: be_bytes n' x
  end.

(** Big-endian value of a byte string. *)
Definition be_value (bs : bytes) : Z :=
  fold_left (fun acc b => acc * 256 + b) bs 0.

(** Section 5.1.1: a one bit, zeros up to 56 mod 64, the bit length. *)
Definition pad (msg : bytes) : bytes :=
  let l := Z.of_nat (length msg) in
  msg ++ [0x80] ++ repeat 0 (Z.to_nat ((55 - l) mod 64)) ++ be_bytes 8 (8 * l).

Fixpoint words (n : nat) (bs : bytes) : list Z :=
  match n with
  | O => []
  | S n' => be_value (firstn 4 bs) :: words n' (skipn 4 bs)
  end.

Definition wd (w : list Z) (i : nat) : Z := nth i w 0.

(** The message schedule: [w] grows from 16 to 80 words. *)
Fixpoint schedule (n : nat) (w : list Z) : list Z :=
  match n with
  | O => w
  | S n' =>
      let t := length w in
      let x := Z.lxor (Z.lxor (Z.lxor (wd w (t - 3)) (wd w (t - 8)))
                              (wd w (t - 14))) (wd w (t - 16)) in
      schedule n' (w ++ [rotl 1 x])
  end.

Definition round (w : list Z) (st : Z * Z * Z * Z * Z) (t : nat)
  : Z * Z * Z * Z * Z :=
  let '(a, b, c, d, e) := st in
  let tmp := add32 (add32 (add32 (add32 (rotl 5 a) (f t b c d)) e) (K t))
                   (wd w t) in
  (tmp, a, rotl 30 b, c, d).

Definition compress (h : list Z) (block : bytes) : list Z :=
  let w := schedule 64 (words 16 block) in
  let st0 := (wd h 0, wd h 1, wd h 2, wd h 3, wd h 4) in
  let '(a, b, c, d, e) := fold_left (round w) (seq 0 80) st0 in
  [add32 (wd h 0) a; add32 (wd h 1) b; add32 (wd h 2) c;
   add32 (wd h 3) d; add32 (wd h 4) e].

Fixpoint blocks (n : nat) (h : list Z) (bs : bytes) : list Z :=
  match n with
  | O => h
  | S n' => blocks n' (compress h (firstn 64 bs)) (skipn 64 bs)
  end.

(** [hashlib.sha1(msg).digest()]: twenty bytes. *)
Definition digest (msg : bytes) : bytes :=
  let p := pad msg in
  flat_map (be_bytes 4) (blocks (length p / 64) H0 p).

Definition hex_digit (d : Z) : Z :=
  if d <? 10 then 48 + d else 87 + d.

(** [hashlib.sha1(msg).hexdigest()]: forty lower-case hex digits. *)
Definition hexdigest (msg : bytes) : str :=
  flat_map (fun b => [hex_digit (b / 16); hex_digit (b mod 16)]) (digest msg).

End SHA1.

(** ** [int(s, 16)] on a string of hex digits *)
Definition hex_value (c : Z) : option Z :=
  if (48 <=? c) && (c <=? 57) then Some (c - 48)
  else if (97 <=? c) && (c <=? 102) then Some (c - 87)
  else if (65 <=? c) && (c <=? 70) then Some (c - 55)
  else None.

Fixpoint int16_from (acc : Z) (s : str) : option Z :=
  match s with
  | [] => Some acc
  | c :: s' =>
      match hex_value c with
      | Some d => int16_from (acc * 16 + d) s'
      | None => None
      end
  end.

Definition int16 (s : str) : result Z :=
  match s with
  | [] => Raise (ValueError (py "invalid literal for int() with base 16"))
  | _ =>
      match int16_from 0 s with
      | Some n => Ok n
      | None => Raise (ValueError (py "invalid literal for int() with base 16"))
      end
  end.

(** ** The identifier argument *)

(** The builtin [str()] on an object that is not already a [str], for
    the objects on which it returns: a [__str__] that raises, or an
    [int] beyond the digit limit of the interpreter, has no instance. *)
Class PyObject (A : Type) : Type := py_str : A -> str.

(** Decimal digits of a non-negative integer, most significant first;
    the fuel bounds the number of digits. *)
Fixpoint digits_of_pos (fuel : nat) (n : Z) (acc : str) : str :=
  match fuel with
  | O => acc
  | S fuel' =>
      let acc' := (48 + n mod 10) :: acc in
      if n <? 10 then acc' else digits_of_pos fuel' (n / 10) acc'
  end.

Definition str_of_nonneg (n : Z) : str :=
  digits_of_pos (S (Z.to_nat (Z.log2 n))) n [].

(** [str(z)] for a Python [int]. *)
Definition str_of_int (z : Z) : str :=
  if z <? 0 then 45 :: str_of_nonneg (- z) else str_of_nonneg z.

#[global] Instance PyObject_int : PyObject Z := str_of_int.
#[global] Instance PyObject_bool : PyObject bool :=
  fun b => if b then py "True" else py "False".

(** [unique_id]: [None], a [str], or any other object. *)
Inductive unique_id : Type :=
| IdNone
| IdStr (s : str)
| IdObj {A : Type} {H : PyObject A} (a : A).

(** ** [str.lower] and [str.strip] *)

(** [str.lower()] on the ASCII letters; the module applies it to the five
    class constants only. *)
Definition lower (s : str) : str :=
  map (fun c => if (65 <=? c) && (c <=? 90) then c + 32 else c) s.

(** [str.isspace] for one code point (CPython's white-space table). *)
Definition is_space (c : Z) : bool :=
  ((0x09 <=? c) && (c <=? 0x0D)) || ((0x1C <=? c) && (c <=? 0x20))
  || (c =? 0x85) || (c =? 0xA0) || (c =? 0x1680)
  || ((0x2000 <=? c) && (c <=? 0x200A))
  || (c =? 0x2028) || (c =? 0x2029) || (c =? 0x202F) || (c =? 0x205F)
  || (c =? 0x3000).

Fixpoint lstrip (s : str) : str :=
  match s with
  | [] => []
  | c :: s' => if is_space c then lstrip s' else s
  end.

Definition rstrip (s : str) : str := rev (lstrip (rev s)).

Definition strip (s : str) : str := rstrip (lstrip s).

(** ** [str.split] and [str.join] *)

(** [s.split()] without a separator: the maximal runs of code points
    that are not white space; [word] is the run being read. *)
Fixpoint split_run (word : str) (s : str) : list str :=
  match s with
  | [] => match word with
          | [] => []
          | _ :: _ => [word]
          end
  | c :: s' =>
      if is_space c then
        match word with
        | [] => split_run [] s'
        | _ :: _ => word :: split_run [] s'
        end
      else split_run (word ++ [c]) s'
  end.

Definition split (s : str) : list str := split_run [] s.

(** [sep.join(words)]. *)
Fixpoint join (sep : str) (words : list str) : str :=
  match words with
  | [] => []
  | [w] => w
  | w :: rest => w ++ sep ++ join sep rest
  end.

(** ** [DeviceInfo] *)
Module DeviceInfo.

Record t : Type := mk {
  device_model : str;
  system_version : str;
  lang_code : str;
  system_lang_code : str;
  app_version : str;
  lang_pack : str;
  api_id : str;
  api_hash : str
}.

(** [to_dict]: the eight items in insertion order. *)
Definition to_dict (self : t) : list (str * str) :=
  [ (py "device_model", device_model self);
    (py "system_version", system_version self);
    (py "lang_code", lang_code self);
    (py "system_lang_code", system_lang_code self);
    (py "app_version", app_version self);
    (py "lang_pack", lang_pack self);
    (py "api_id", api_id self);
    (py "api_hash", api_hash self) ].

End DeviceInfo.

(** ** [json.dumps(d, ensure_ascii=False)] for a dict of strings *)
Module JSON.

Definition hex4 (c : Z) : str :=
  [SHA1.hex_digit (c / 4096 mod 16); SHA1.hex_digit (c / 256 mod 16);
   SHA1.hex_digit (c / 16 mod 16); SHA1.hex_digit (c mod 16)].

(** The encoder's escape table: the quote, the backslash and the
    control characters below 0x20; everything else is kept literally. *)
Definition escape_char (c : Z) : str :=
  if c =? 34 then [92; 34]
  else if c =? 92 then [92; 92]
  else if c =? 8 then [92; 98]
  else if c =? 12 then [92; 102]
  else if c =? 10 then [92; 110]
  else if c =? 13 then [92; 114]
  else if c =? 9 then [92; 116]
  else if (0 <=? c) && (c <? 32) then [92; 117] ++ hex4 c
  else [c].

Definition dumps_str (s : str) : str :=
  [34] ++ flat_map escape_char s ++ [34].

Fixpoint dumps_items (items : list (str * str)) : str :=
  match items with
  | [] => []
  | [(k, v)] => dumps_str k ++ py ": " ++ dumps_str v
  | (k, v) :: rest =>
      dumps_str k ++ py ": " ++ dumps_str v ++ py ", " ++ dumps_items rest
  end.

Definition dumps (items : list (str * str)) : str :=
  py "{" ++ dumps_items items ++ py "}".

End JSON.

(** ** The parsed data file *)

(** A JSON value as [json.load] returns it; [lang_packs] entries are
    inspected with [isinstance(lp, str)], so they are kept untyped. *)
Unset Elimination Schemes.
Inductive json : Type :=
| JNull
| JBool (b : bool)
| JNum (n : Z)
| JStr (s : str)
| JList (l : list json)
| JDict (d : list (str * json)).
Set Elimination Schemes.

(** [device_models]: a list of names, or for iOS a dict from a model
    identifier to its suffixes, in document order. *)
Inductive models : Type :=
| ModelList (l : list str)
| ModelDict (d : list (str * list str)).

(** [system_versions]: a list of versions, or for iOS a dict
    major -> minor -> patches. *)
Inductive versions : Type :=
| VersionList (l : list str)
| VersionDict (d : list (str * list (str * list str))).

(** The top-level dict of a data file; [None] is an absent key. *)
Record data : Type := mk_data {
  key_device_models : option models;
  key_system_versions : option versions;
  key_lang_codes : option (list str);
  key_system_lang_codes : option (list str);
  key_app_versions : option (list str);
  key_lang_packs : option (list json);
  key_api_id : option (list str);
  key_api_hash : option (list str)
}.

(** [dict.get(key, default)]. *)
Definition get {A : Type} (v : option A) (default : A) : A :=
  match v with
  | Some a => a
  | None => default
  end.

(** What [open] and [json.load] find at a path. *)
Inductive file : Type :=
| Absent
| Malformed
| Parsed (d : data).

(** The directory tree: directory and file name to content. *)
Definition filesystem := str -> str -> file.

(** ** The generator classes *)

Inductive device_class : Type :=
| WindowsDevice | LinuxDevice | macOSDevice | AndroidDevice | iOSDevice.

Definition device_class_eqb (a b : device_class) : bool :=
  match a, b with
  | WindowsDevice, WindowsDevice | LinuxDevice, LinuxDevice
  | macOSDevice, macOSDevice | AndroidDevice, AndroidDevice
  | iOSDevice, iOSDevice => true
  | _, _ => false
  end.

Module BaseDeviceGenerator.

(** The class attributes of one generator class. *)
Record attrs : Type := mk_attrs {
  device_list : list DeviceInfo.t;
  device_models : models;
  system_versions : versions;
  lang_codes : list str;
  system_lang_codes : list str;
  app_versions : list str;
  lang_packs : list str;
  api_id : list str;
  api_hash : list str;
  data_dir : str
}.

(** The attributes as the class statement leaves them. *)
Definition initial : attrs :=
  mk_attrs [] (ModelList []) (VersionList []) [] [] [] [] [] [] (py "data").

Definition platform (cls : device_class) : str :=
  match cls with
  | WindowsDevice => py "Windows"
  | LinuxDevice => py "Linux"
  | macOSDevice => py "macOS"
  | AndroidDevice => py "Android"
  | iOSDevice => py "iOS"
  end.

Definition set_device_list (l : list DeviceInfo.t) (a : attrs) : attrs :=
  mk_attrs l (device_models a) (system_versions a) (lang_codes a)
    (system_lang_codes a) (app_versions a) (lang_packs a) (api_id a)
    (api_hash a) (data_dir a).

Definition set_data_dir (d : str) (a : attrs) : attrs :=
  mk_attrs (device_list a) (device_models a) (system_versions a)
    (lang_codes a) (system_lang_codes a) (app_versions a) (lang_packs a)
    (api_id a) (api_hash a) d.

(** A class method: it runs on the attributes of [cls] and leaves the
    attributes it has written, whether it returns or raises. *)
Definition method (A : Type) : Type := attrs -> result A * attrs.

Definition ret {A} (a : A) : method A := fun s => (Ok a, s).
Definition raise {A} (e : exn) : method A := fun s => (Raise e, s).
Definition lift {A} (r : result A) : method A := fun s => (r, s).
Definition read {A} (field : attrs -> A) : method A := fun s => (Ok (field s), s).
Definition write (upd : attrs -> attrs) : method unit := fun s => (Ok tt, upd s).

Definition seq_ {A B} (m : method A) (k : A -> method B) : method B :=
  fun s =>
    match m s with
    | (Ok a, s') => k a s'
    | (Raise e, s') => (Raise e, s')
    end.

Notation "x <- m ;; k" := (seq_ m (fun x => k))
  (at level 61, m at next level, right associativity).
Notation "m ;; k" := (seq_ m (fun _ => k))
  (at level 61, right associativity).

(** [for x in l: body]. *)
Fixpoint for_ {A} (l : list A) (body : A -> method unit) : method unit :=
  match l with
  | [] => ret tt
  | x :: l' => body x ;; for_ l' body
  end.

(** [d.items()] of a dict-shaped attribute; a list has no such method. *)
Definition model_items (m : models) : result (list (str * list str)) :=
  match m with
  | ModelDict d => Ok d
  | ModelList _ => Raise AttributeError
  end.

Definition version_items (v : versions)
  : result (list (str * list (str * list str))) :=
  match v with
  | VersionDict d => Ok d
  | VersionList _ => Raise AttributeError
  end.

(** [for x in attribute]: a list yields its elements, a dict its keys. *)
Definition model_iter (m : models) : list str :=
  match m with
  | ModelList l => l
  | ModelDict d => map fst d
  end.

Definition version_iter (v : versions) : list str :=
  match v with
  | VersionList l => l
  | VersionDict d => map fst d
  end.

(** [values[0] if values else default]. *)
Definition first_or (values : list str) (default : str) : str :=
  match values with
  | [] => default
  | v :: _ => v
  end.

Definition load_data (cls : device_class) (fs : filesystem) : method unit :=
  fun s =>
    match fs (data_dir s) (lower (platform cls) ++ py ".json") with
    | Absent => (Raise FileNotFoundError, s)
    | Malformed => (Raise JSONDecodeError, s)
    | Parsed d =>
        let device_models := get (key_device_models d) (ModelList []) in
        let system_versions := get (key_system_versions d) (VersionList []) in
        let lang_codes := get (key_lang_codes d) [] in
        let system_lang_codes := get (key_system_lang_codes d) lang_codes in
        let app_versions := get (key_app_versions d) [] in
        let lang_packs := get (key_lang_packs d) [JStr (py "default")] in
        let api_id := get (key_api_id d) [py ""] in
        let api_hash := get (key_api_hash d) [py ""] in
        let lang_packs :=
          flat_map (fun lp => match lp with
                              | JStr (c :: r) => [c :: r]
                              | _ => []
                              end) lang_packs in
        let lang_packs :=
          match lang_packs with
          | [] => [py "en-US"]
          | _ => lang_packs
          end in
        (Ok tt,
         mk_attrs (device_list s) device_models system_versions lang_codes
           system_lang_codes app_versions lang_packs api_id api_hash
           (data_dir s))
    end.

(** [cls.device_list.append(DeviceInfo(...))] of the three branches;
    [pack_default] is the branch's fallback for [lang_pack]. *)
Definition append_device (model version pack_default : str) : method unit :=
  fun s =>
    let d :=
      DeviceInfo.mk model version
        (first_or (lang_codes s) (py "en"))
        (first_or (system_lang_codes s) (py "en-US"))
        (first_or (app_versions s) (py "1.0.0"))
        (first_or (lang_packs s) pack_default)
        (first_or (api_id s) (py ""))
        (first_or (api_hash s) (py "")) in
    (Ok tt, set_device_list (device_list s ++ [d]) s).

(** The version string of one minor entry of the iOS catalog. *)
Definition ios_version (major minor : str) (patches : list str) : str :=
  match patches with
  | [] => major ++ py "." ++ minor
  | p :: _ => major ++ py "." ++ minor ++ py "." ++ p
  end.

Definition _generate (cls : device_class) (fs : filesystem) : method unit :=
  dl <- read device_list ;;
  match dl with
  | _ :: _ => ret tt
  | [] =>
      load_data cls fs ;;
      write (set_device_list []) ;;
      if str_eqb (platform cls) (py "iOS") then
        ms <- read device_models ;;
        items <- lift (model_items ms) ;;
        for_ items (fun '(model_id, suffixes) =>
          let base_model :=
            if negb (str_eqb model_id (py "SE"))
            then py "iPhone " ++ model_id else py "iPhone SE" in
          for_ suffixes (fun suffix =>
            let model_name := strip (base_model ++ suffix) in
            vs <- read system_versions ;;
            majors <- lift (version_items vs) ;;
            for_ majors (fun '(major, minors) =>
              for_ minors (fun '(minor, patches) =>
                append_device model_name (ios_version major minor patches)
                  (py "default")))))
      else if str_eqb (platform cls) (py "macOS") then
        ms <- read device_models ;;
        for_ (model_iter ms) (fun model =>
          vs <- read system_versions ;;
          for_ (version_iter vs) (fun version =>
            append_device model version (py "macos")))
      else
        ms <- read device_models ;;
        for_ (model_iter ms) (fun model =>
          vs <- read system_versions ;;
          for_ (version_iter vs) (fun version =>
            append_device model version (py "default")))
  end.

Definition _str_to_hash_id (urandom : bytes) (unique_id : unique_id)
  : result Z :=
  let unique_id : option str :=
    match unique_id with
    | IdNone => None
    | IdStr s => Some s
    | IdObj a => Some (py_str a)
    end in
  do byte_id <- match unique_id with
                | None => Ok urandom
                | Some s => UTF8.encode s
                end;
  do n <- int16 (SHA1.hexdigest byte_id);
  Ok (n mod 10 ^ 12).

Definition _hash_to_value {T : Type} (cls : device_class) (hash_id : Z)
    (values : list T) : result T :=
  match values with
  | [] => Raise (ValueError (py "No values available for " ++ platform cls))
  | v :: _ =>
      Ok (nth (Z.to_nat (hash_id mod Z.of_nat (length values))) values v)
  end.

Definition _random_device (cls : device_class) (fs : filesystem)
    (hash_id : Z) : method DeviceInfo.t :=
  _generate cls fs ;;
  dl <- read device_list ;;
  device <- lift (_hash_to_value cls hash_id dl) ;;
  l <- read lang_codes ;;
  lang_code <- lift (_hash_to_value cls (hash_id + 1) l) ;;
  l <- read system_lang_codes ;;
  system_lang_code <- lift (_hash_to_value cls (hash_id + 2) l) ;;
  l <- read app_versions ;;
  app_version <- lift (_hash_to_value cls (hash_id + 3) l) ;;
  l <- read lang_packs ;;
  lang_pack <- lift (_hash_to_value cls (hash_id + 4) l) ;;
  l <- read api_id ;;
  api_id <- lift (_hash_to_value cls (hash_id + 5) l) ;;
  l <- read api_hash ;;
  api_hash <- lift (_hash_to_value cls (hash_id + 6) l) ;;
  ret (DeviceInfo.mk (DeviceInfo.device_model device)
         (DeviceInfo.system_version device)
         lang_code system_lang_code app_version lang_pack api_id api_hash).

Definition random_device (cls : device_class) (fs : filesystem)
    (urandom : bytes) (unique_id : unique_id) : method str :=
  hash_id <- lift (_str_to_hash_id urandom unique_id) ;;
  device_info <- _random_device cls fs hash_id ;;
  ret (JSON.dumps (DeviceInfo.to_dict device_info)).

Definition _clean_and_simplify (text : str) : str :=
  join (py " ")
       (filter (fun word => match word with [] => false | _ :: _ => true end)
               (split text)).

End BaseDeviceGenerator.

(** ** The module-level entry point *)

(** The attributes of the five classes: the state of the process. *)
Definition process := device_class -> BaseDeviceGenerator.attrs.

Definition fresh : process := fun _ => BaseDeviceGenerator.initial.

Definition update (p : process) (cls : device_class)
    (a : BaseDeviceGenerator.attrs) : process :=
  fun c => if device_class_eqb c cls then a else p c.

(** [platform_classes.get(platform)]. *)
Definition platform_classes (platform : str) : option device_class :=
  if str_eqb platform (py "Windows") then Some WindowsDevice
  else if str_eqb platform (py "Linux") then Some LinuxDevice
  else if str_eqb platform (py "macOS") then Some macOSDevice
  else if str_eqb platform (py "Android") then Some AndroidDevice
  else if str_eqb platform (py "iOS") then Some iOSDevice
  else None.

(** [get_random_device(platform, unique_id, data_dir)] run in process
    state [p] over the directory tree [fs]; [urandom] is what
    [os.urandom(32)] returns if it is called. *)
Definition get_random_device (fs : filesystem) (urandom : bytes)
    (platform : str) (unique_id : unique_id) (data_dir : str) (p : process)
  : result str * process :=
  match platform_classes platform with
  | None => (Raise (ValueError (py "Unsupported platform: " ++ platform)), p)
  | Some device_class =>
      let a := BaseDeviceGenerator.set_data_dir data_dir (p device_class) in
      let '(r, a') :=
        BaseDeviceGenerator.random_device device_class fs urandom unique_id a in
      (r, update p device_class a')
  end.

(** ** Processes that have served requests *)

(** The states a process can be in: it starts [fresh] and serves calls of
    [get_random_device], with any arguments and over any directory tree. *)
Inductive reachable : process -> Prop :=
| reach_fresh : reachable fresh
| reach_call fs urandom platform unique_id data_dir p :
    reachable p ->
    reachable (snd (get_random_device fs urandom platform unique_id data_dir p)).

(** The states a process can move to from [p0] by further calls. *)
Inductive after (p0 : process) : process -> Prop :=
| after_now : after p0 p0
| after_call fs urandom platform unique_id data_dir p :
    after p0 p ->
    after p0 (snd (get_random_device fs urandom platform unique_id data_dir p)).

(** The states of a process whose calls all name the same [data_dir] of
    the same, unchanged directory tree. *)
Inductive serving (fs : filesystem) (dir : str) : process -> Prop :=
| serving_fresh : serving fs dir fresh
| serving_call urandom platform unique_id p :
    serving fs dir p ->
    serving fs dir (snd (get_random_device fs urandom platform unique_id dir p)).

(** ** Closed forms of the loader and of the expansion *)
Module Reference.
Import BaseDeviceGenerator.

(** The file [load_data] opens for a class. *)
Definition file_name (cls : device_class) : str :=
  lower (platform cls) ++ py ".json".

(** The attributes [load_data] leaves when the file parses to [d]. *)
Definition loaded (d : data) (s : attrs) : attrs :=
  snd (load_data WindowsDevice (fun _ _ => Parsed d) s).

(** The [DeviceInfo] that [append_device] builds in state [s]. *)
Definition entry (s : attrs) (pack_default : str) (mv : str * str)
  : DeviceInfo.t :=
  DeviceInfo.mk (fst mv) (snd mv)
    (first_or (lang_codes s) (py "en"))
    (first_or (system_lang_codes s) (py "en-US"))
    (first_or (app_versions s) (py "1.0.0"))
    (first_or (lang_packs s) pack_default)
    (first_or (api_id s) (py ""))
    (first_or (api_hash s) (py "")).

(** The iOS model names: ["iPhone {id}"], the suffix appended, trimmed. *)
Definition ios_names (md : list (str * list str)) : list str :=
  flat_map (fun '(model_id, suffixes) =>
              map (fun suffix => strip (py "iPhone " ++ model_id ++ suffix))
                  suffixes) md.

(** The iOS version strings, one per (major, minor). *)
Definition ios_versions (vd : list (str * list (str * list str))) : list str :=
  flat_map (fun '(major, minors) =>
              map (fun '(minor, patches) => ios_version major minor patches)
                  minors) vd.

Definition pack_default (cls : device_class) : str :=
  match cls with
  | macOSDevice => py "macos"
  | _ => py "default"
  end.

(** The (model, version) pairs the expansion walks through, or the
    exception it ends with. *)
Definition pairs (cls : device_class) (s : attrs) : result (list (str * str)) :=
  match cls with
  | iOSDevice =>
      match device_models s, system_versions s with
      | ModelList _, _ => Raise AttributeError
      | ModelDict md, VersionDict vd =>
          Ok (list_prod (ios_names md) (ios_versions vd))
      | ModelDict md, VersionList _ =>
          match ios_names md with
          | [] => Ok []
          | _ :: _ => Raise AttributeError
          end
      end
  | _ =>
      Ok (list_prod (model_iter (device_models s))
                    (version_iter (system_versions s)))
  end.

(** The projection of a [DeviceList] to its (model, version) pairs. *)
Definition model_version (d : DeviceInfo.t) : str * str :=
  (DeviceInfo.device_model d, DeviceInfo.system_version d).

(** The element [_hash_to_value] picks: index [(h + offset) mod len]. *)
Definition pick {T : Type} (h offset : Z) (values : list T) (default : T) : T :=
  nth (Z.to_nat ((h + offset) mod Z.of_nat (length values))) values default.

(** A method that, from a state satisfying [P], only appends [F s] to
    [device_list]. *)
Definition appends (P : attrs -> Prop) (m : method unit)
    (F : attrs -> list DeviceInfo.t) : Prop :=
  forall s, P s -> m s = (Ok tt, set_device_list (device_list s ++ F s) s).

(** [F] does not look at [device_list]. *)
Definition stable {A : Type} (F : attrs -> A) : Prop :=
  forall l s, F (set_device_list l s) = F s.

Definition stable_pred (P : attrs -> Prop) : Prop :=
  forall l s, P s -> P (set_device_list l s).

(** What [_generate] does on empty [device_list] when the file parses
    to [d]: the loaded attributes, then the expansion. *)
Definition generated (cls : device_class) (d : data) (s : attrs)
  : result unit * attrs :=
  let s0 := set_device_list [] (loaded d s) in
  match pairs cls s0 with
  | Ok l => (Ok tt, set_device_list (map (entry s0 (pack_default cls)) l) s0)
  | Raise e => (Raise e, s0)
  end.

(** The seven selections of [_random_device] on given attributes. *)
Definition select (cls : device_class) (hash_id : Z) (s : attrs)
  : result DeviceInfo.t :=
  do device <- _hash_to_value cls hash_id (device_list s);
  do lang_code <- _hash_to_value cls (hash_id + 1) (lang_codes s);
  do system_lang_code <- _hash_to_value cls (hash_id + 2) (system_lang_codes s);
  do app_version <- _hash_to_value cls (hash_id + 3) (app_versions s);
  do lang_pack <- _hash_to_value cls (hash_id + 4) (lang_packs s);
  do api_id <- _hash_to_value cls (hash_id + 5) (api_id s);
  do api_hash <- _hash_to_value cls (hash_id + 6) (api_hash s);
  Ok (DeviceInfo.mk (DeviceInfo.device_model device)
        (DeviceInfo.system_version device)
        lang_code system_lang_code app_version lang_pack api_id api_hash).

(** The cache of a class is empty, or holds what the data file of
    [dir] expands to. *)
Definition cache_ok (fs : filesystem) (dir : str) (p : process) : Prop :=
  forall cls,
    device_list (p cls) = []
    \/ exists d, fs dir (file_name cls) = Parsed d
                 /\ p cls = snd (generated cls d (set_data_dir dir initial)).

(** The JSON text of a record. *)
Definition serialize (info : DeviceInfo.t) : str :=
  JSON.dumps (DeviceInfo.to_dict info).

(** The record a call for class [cls] with hash [h] selects when the
    data file of [dir] is read afresh. *)
Definition answer_record (fs : filesystem) (dir : str) (cls : device_class)
    (h : Z) : result DeviceInfo.t :=
  match fs dir (file_name cls) with
  | Absent => Raise FileNotFoundError
  | Malformed => Raise JSONDecodeError
  | Parsed d =>
      match generated cls d (set_data_dir dir initial) with
      | (Ok _, s1) => select cls h s1
      | (Raise e, _) => Raise e
      end
  end.

(** The same, serialized: what the call returns. *)
Definition answer (fs : filesystem) (dir : str) (cls : device_class) (h : Z)
  : result str :=
  do info <- answer_record fs dir cls h; Ok (serialize info).

(** Every cached [lang_packs] entry is a non-empty string. *)
Definition packs_ok (p : process) : Prop :=
  forall cls, Forall (fun lp => lp <> []) (lang_packs (p cls)).

(** The record [_random_device] returns inside a call of
    [get_random_device], before it is serialized. *)
Definition record_of (fs : filesystem) (urandom : bytes) (name : str)
    (unique_id : unique_id) (dir : str) (p : process) : result DeviceInfo.t :=
  match platform_classes name with
  | None => Raise (ValueError (py "Unsupported platform: " ++ name))
  | Some cls =>
      do h <- _str_to_hash_id urandom unique_id;
      fst (_random_device cls fs h (set_data_dir dir (p cls)))
  end.

(** The text that is hashed for a present identifier. *)
Definition text_of (u : unique_id) : option str :=
  match u with
  | IdNone => None
  | IdStr s => Some s
  | IdObj a => Some (py_str a)
  end.


Definition no_models (d : data) : Prop :=
  model_iter (get (key_device_models d) (ModelList [])) = [].


(** The cached catalog and [DeviceList] of a class: every attribute but
    [data_dir], which each call overwrites with its argument. *)
Definition cached (a : attrs) : attrs := set_data_dir [] a.

(** A [lang_packs] entry the loader drops. *)
Definition dropped (e : json) : Prop :=
  match e with
  | JStr (_ :: _) => False
  | _ => True
  end.

(** The range of a byte. *)
Definition is_byte (b : Z) : Prop := 0 <= b < 256.

(** No field of a record is the empty string. *)
Definition all_fields_nonempty (info : DeviceInfo.t) : Prop :=
  DeviceInfo.device_model info <> [] /\ DeviceInfo.system_version info <> []
  /\ DeviceInfo.lang_code info <> [] /\ DeviceInfo.system_lang_code info <> []
  /\ DeviceInfo.app_version info <> [] /\ DeviceInfo.lang_pack info <> []
  /\ DeviceInfo.api_id info <> [] /\ DeviceInfo.api_hash info <> [].

(** A Unicode scalar value: a code point that is not a surrogate. *)
Definition scalar_value (c : Z) : Prop :=
  0 <= c < 0x110000 /\ ~ (0xD800 <= c <= 0xDFFF).

(** A code point [json.dumps] writes as it is. *)
Definition plain (c : Z) : Prop := c <> 34 /\ c <> 92 /\ ~ (0 <= c < 32).

(** Reading back one escaped string body up to its closing quote, the
    way a JSON reader undoes [JSON.escape_char]: the text read and what
    follows the quote. *)
Fixpoint scan (s : str) : option (str * str) :=
  match s with
  | [] => None
  | c :: rest =>
      if c =? 34 then Some ([], rest)
      else if c =? 92 then
        match rest with
        | [] => None
        | e :: rest1 =>
            if e =? 117 then
              match rest1 with
              | a :: b :: x :: y :: rest2 =>
                  match hex_value a, hex_value b, hex_value x, hex_value y,
                        scan rest2 with
                  | Some va, Some vb, Some vx, Some vy, Some (t, r) =>
                      Some ((((va * 16 + vb) * 16 + vx) * 16 + vy) :: t, r)
                  | _, _, _, _, _ => None
                  end
              | _ => None
              end
            else
              let u := if e =? 98 then 8 else if e =? 102 then 12
                       else if e =? 110 then 10 else if e =? 114 then 13
                       else if e =? 116 then 9 else e in
              match scan rest1 with
              | Some (t, r) => Some (u :: t, r)
              | None => None
              end
        end
      else
        match scan rest with
        | Some (t, r) => Some (c :: t, r)
        | None => None
        end
  end.

(** A word of [split]: not empty and free of white space. *)
Definition is_word (w : str) : Prop :=
  w <> [] /\ Forall (fun c => is_space c = false) w.

(** The text without its white space. *)
Definition without_space (s : str) : str :=
  filter (fun c => negb (is_space c)) s.

(** [n] is [x] without the white space at its two ends: [x] is [n]
    between two runs of white space, and [n] is empty or begins and
    ends with a code point that is not white space. *)
Definition trimmed_of (x n : str) : Prop :=
  (exists pre post,
      x = pre ++ n ++ post
      /\ Forall (fun c => is_space c = true) pre
      /\ Forall (fun c => is_space c = true) post)
  /\ (n = []
      \/ exists c y d z, n = c :: y /\ n = z ++ [d]
                         /\ is_space c = false /\ is_space d = false).

End Reference.

(** ** Catalogs of the examples *)
Module Fixture.

(** The end-to-end fixture of the flat platforms. *)
Definition flat : data :=
  mk_data (Some (ModelList [py "ModelA"; py "ModelB"]))
          (Some (VersionList [py "1.0"; py "2.0"]))
          (Some [py "en"]) None (Some [py "1.0.0"])
          (Some [JStr (py "default")]) (Some [py ""]) (Some [py ""]).

(** The iOS model-synthesis fixture. *)
Definition ios : data :=
  mk_data (Some (ModelDict [(py "SE", [py ""]); (py "12", [py " Pro"])]))
          (Some (VersionDict [(py "15", [(py "0", [])])]))
          (Some [py "en"]) None (Some [py "1.0.0"])
          (Some [JStr (py "default")]) (Some [py ""]) (Some [py ""]).

(** A catalog without models. *)
Definition no_models : data :=
  mk_data (Some (ModelList [])) (Some (VersionList [py "1.0"]))
          (Some [py "en"]) None (Some [py "1.0.0"])
          (Some [JStr (py "default")]) (Some [py ""]) (Some [py ""]).

(** [flat] with nothing usable under [lang_packs], and without the
    two credential keys. *)
Definition bare : data :=
  mk_data (Some (ModelList [py "ModelA"; py "ModelB"]))
          (Some (VersionList [py "1.0"; py "2.0"]))
          (Some [py "en"]) None (Some [py "1.0.0"])
          (Some [JStr (py ""); JNum 7; JNull]) None None.

(** A directory tree in which every data file parses to [d]. *)
Definition tree (d : data) : filesystem := fun _ _ => Parsed d.

(** The record the fixture yields for the identifier "fixed". *)
Definition flat_record : DeviceInfo.t :=
  DeviceInfo.mk (py "ModelA") (py "2.0") (py "en") (py "en") (py "1.0.0")
    (py "default") (py "") (py "").

(** The record [bare] yields for the identifier "fixed". *)
Definition bare_record : DeviceInfo.t :=
  DeviceInfo.mk (py "ModelA") (py "2.0") (py "en") (py "en") (py "1.0.0")
    (py "en-US") (py "") (py "").

(** [flat] without any language code. *)
Definition no_lang_codes : data :=
  mk_data (Some (ModelList [py "ModelA"; py "ModelB"]))
          (Some (VersionList [py "1.0"; py "2.0"]))
          (Some []) None (Some [py "1.0.0"])
          (Some [JStr (py "default")]) (Some [py ""]) (Some [py ""]).

(** [flat] with two language codes and no [system_lang_codes]. *)
Definition two_langs : data :=
  mk_data (Some (ModelList [py "ModelA"; py "ModelB"]))
          (Some (VersionList [py "1.0"; py "2.0"]))
          (Some [py "en"; py "fr"]) None (Some [py "1.0.0"])
          (Some [JStr (py "default")]) (Some [py ""]) (Some [py ""]).

(** A directory tree without any file. *)
Definition empty_tree : filesystem := fun _ _ => Absent.

(** An iOS catalog with white space around identifiers and suffixes,
    and with more than one patch. *)
Definition ios_spaced : data :=
  mk_data (Some (ModelDict [(py "SE ", [py ""; py " "]);
                            (py "12", [py "   Pro Max " ++ [9]])]))
          (Some (VersionDict [(py "16", [(py "1", [py "2"; py "3"])])]))
          (Some [py "en"]) None (Some [py "1.0.0"])
          (Some [JStr (py "default")]) (Some [py ""]) (Some [py ""]).


End Fixture.

Import BaseDeviceGenerator Reference.

(** Closes [Forall] goals about the code points of a literal. *)
Ltac literal_printable :=
  cbn; repeat (constructor; [lia|]); constructor.

(** * Properties *)

(** ** Test vectors *)

Example sha1_abc :
  SHA1.hexdigest (py "abc") = py "a9993e364706816aba3e25717850c26c9cd0d89d".
Proof. vm_compute. reflexivity. Qed.

Example sha1_empty :
  SHA1.hexdigest [] = py "da39a3ee5e6b4b0d3255bfef95601890afd80709".
Proof. vm_compute. reflexivity. Qed.

Example sha1_two_blocks :
  SHA1.hexdigest
    (py "abcdbcdecdefdefgefghfghighijhijkijkljklmklmnlmnomnopnopq")
  = py "84983e441c3bd26ebaae4aa1f95129e5e54670f1".
Proof. vm_compute. reflexivity. Qed.

Example utf8_samples :
  UTF8.encode [0xE9] = Ok [0xC3; 0xA9]
  /\ UTF8.encode [0x20AC] = Ok [0xE2; 0x82; 0xAC]
  /\ UTF8.encode [0x1F600] = Ok [0xF0; 0x9F; 0x98; 0x80]
  /\ UTF8.encode [0xD800] = Raise UnicodeEncodeError.
Proof. vm_compute. repeat split. Qed.

Example str_of_int_samples :
  str_of_int 0 = py "0" /\ str_of_int 1000 = py "1000"
  /\ str_of_int (-1200) = py "-1200" /\ str_of_int 999 = py "999".
Proof. vm_compute. repeat split. Qed.

Example hash_fixed :
  _str_to_hash_id [] (IdStr (py "fixed")) = Ok 198834220397.
Proof. vm_compute. reflexivity. Qed.

(** ** The loops of [_generate] *)

Lemma set_device_list_same s : set_device_list (device_list s) s = s.
Proof. destruct s; reflexivity. Qed.

Lemma appends_append_device P model version pd :
  appends P (append_device model version pd)
          (fun s => [entry s pd (model, version)]).
Proof. intros s _. reflexivity. Qed.

Lemma appends_for {A : Type} P (l : list A) body F :
  stable_pred P ->
  (forall x, appends P (body x) (F x)) ->
  (forall x, stable (F x)) ->
  appends P (for_ l body) (fun s => flat_map (fun x => F x s) l).
Proof.
  intros HP Hb Hs. induction l as [|x l IH]; intros s Ps; simpl.
  - unfold ret. now rewrite app_nil_r, set_device_list_same.
  - unfold seq_. rewrite Hb by assumption. rewrite IH by (apply HP, Ps).
    cbn [device_list set_device_list].
    rewrite <- app_assoc.
    rewrite (flat_map_ext _ (fun x0 => F x0 s)) by (intro a; apply Hs).
    reflexivity.
Qed.

Lemma flat_map_singletons {A B C : Type} (f : A * B -> C) (ms : list A)
    (vs : list B) :
  flat_map (fun m => flat_map (fun v => [f (m, v)]) vs) ms
  = map f (list_prod ms vs).
Proof.
  induction ms as [|m ms IH]; simpl; [reflexivity|].
  rewrite map_app, map_map, IH. f_equal.
Qed.

Lemma flat_map_nested {A B C : Type} (F : B -> list C) (g : A -> list B)
    (xs : list A) :
  flat_map F (flat_map g xs) = flat_map (fun x => flat_map F (g x)) xs.
Proof.
  induction xs as [|x xs IH]; simpl; [reflexivity|].
  now rewrite flat_map_app, IH.
Qed.

Lemma flat_map_maps {A B C D : Type} (f : C * D -> DeviceInfo.t)
    (g : A -> list C) (h : B -> list D) (xs : list A) (ys : list B) :
  flat_map (fun x => flat_map (fun c =>
     flat_map (fun y => flat_map (fun d => [f (c, d)]) (h y)) ys) (g x)) xs
  = map f (list_prod (flat_map g xs) (flat_map h ys)).
Proof.
  rewrite <- flat_map_singletons, flat_map_nested.
  apply flat_map_ext. intro x. apply flat_map_ext. intro c.
  now rewrite flat_map_nested.
Qed.

(** The loop of the flat branches. *)
Lemma flat_loop pd ms s :
  for_ ms (fun model =>
    vs <- read system_versions ;;
    for_ (version_iter vs) (fun version => append_device model version pd)) s
  = (Ok tt,
     set_device_list
       (device_list s
        ++ map (entry s pd) (list_prod ms (version_iter (system_versions s))))
       s).
Proof.
  rewrite <- flat_map_singletons.
  apply (appends_for (fun _ => True) ms _
           (fun m s => flat_map (fun v => [entry s pd (m, v)])
                                (version_iter (system_versions s))));
    [easy | | | exact I].
  - intros model s0 _. unfold seq_, read.
    apply (appends_for (fun _ => True) _ _
             (fun v s => [entry s pd (model, v)]));
      [easy | intro v; apply appends_append_device | easy | exact I].
  - intros model l s0. reflexivity.
Qed.

Lemma base_model_eq (model_id : str) :
  (if negb (str_eqb model_id (py "SE"))
   then py "iPhone " ++ model_id else py "iPhone SE")
  = py "iPhone " ++ model_id.
Proof.
  unfold str_eqb. destruct (list_eq_dec Z.eq_dec model_id (py "SE")) as [->|];
    reflexivity.
Qed.

(** The loop of the iOS branch over well-shaped attributes. *)
Lemma ios_loop md vd s :
  system_versions s = VersionDict vd ->
  for_ md (fun '(model_id, suffixes) =>
    let base_model :=
      if negb (str_eqb model_id (py "SE"))
      then py "iPhone " ++ model_id else py "iPhone SE" in
    for_ suffixes (fun suffix =>
      let model_name := strip (base_model ++ suffix) in
      vs <- read system_versions ;;
      majors <- lift (version_items vs) ;;
      for_ majors (fun '(major, minors) =>
        for_ minors (fun '(minor, patches) =>
          append_device model_name (ios_version major minor patches)
            (py "default"))))) s
  = (Ok tt,
     set_device_list
       (device_list s
        ++ map (entry s (py "default"))
               (list_prod (ios_names md) (ios_versions vd)))
       s).
Proof.
  intro Hv. unfold ios_names, ios_versions.
  rewrite <- (flat_map_maps (entry s (py "default"))
                (fun x : str * list str =>
                   let '(model_id, suffixes) := x in
                   map (fun suffix => strip (py "iPhone " ++ model_id ++ suffix))
                       suffixes)
                (fun y : str * list (str * list str) =>
                   let '(major, minors) := y in
                   map (fun '(minor, patches) => ios_version major minor patches)
                       minors)).
  set (P := fun s0 => system_versions s0 = VersionDict vd).
  assert (HP : stable_pred P) by (intros l s0 H0; exact H0).
  apply (appends_for P md _
    (fun x s0 =>
       flat_map (fun c =>
         flat_map (fun y =>
           flat_map (fun d => [entry s0 (py "default") (c, d)])
             (let '(major, minors) := y in
              map (fun '(minor, patches) => ios_version major minor patches)
                  minors)) vd)
         (let '(model_id, suffixes) := x in
          map (fun suffix => strip (py "iPhone " ++ model_id ++ suffix))
              suffixes)));
    [exact HP | | | exact Hv].
  - intros [model_id suffixes]. rewrite base_model_eq. cbv zeta.
    intros s0 P0.
    rewrite flat_map_concat_map, map_map, <- flat_map_concat_map.
    revert s0 P0.
    apply (appends_for P suffixes _
      (fun suffix s0 =>
         flat_map (fun y =>
           flat_map (fun d =>
             [entry s0 (py "default")
                (strip ((py "iPhone " ++ model_id) ++ suffix), d)])
             (let '(major, minors) := y in
              map (fun '(minor, patches) => ios_version major minor patches)
                  minors)) vd)); [exact HP | | ].
    + intros suffix s0 P0. unfold seq_ at 1 2, read, lift.
      rewrite P0. cbn [version_items].
      revert s0 P0.
      apply (appends_for P vd _
        (fun y s0 =>
           flat_map (fun d =>
             [entry s0 (py "default")
                (strip ((py "iPhone " ++ model_id) ++ suffix), d)])
             (let '(major, minors) := y in
              map (fun '(minor, patches) => ios_version major minor patches)
                  minors))); [exact HP | | ].
      * intros [major minors] s0 P0.
        rewrite flat_map_concat_map, map_map, <- flat_map_concat_map.
        revert s0 P0.
        apply (appends_for P minors _
          (fun mp s0 =>
             [entry s0 (py "default")
                (strip ((py "iPhone " ++ model_id) ++ suffix),
                 let '(minor, patches) := mp in
                 ios_version major minor patches)])); [exact HP | | ].
        -- intros [minor patches]. apply appends_append_device.
        -- intros [minor patches] l s0. reflexivity.
      * intros [major minors] l s0. reflexivity.
    + intros suffix l s0. reflexivity.
  - intros [model_id suffixes] l s0. reflexivity.
Qed.

(** ** [load_data] and [_generate] in closed form *)

Lemma platform_ios cls :
  str_eqb (platform cls) (py "iOS")
  = match cls with iOSDevice => true | _ => false end.
Proof. destruct cls; vm_compute; reflexivity. Qed.

Lemma platform_macos cls :
  str_eqb (platform cls) (py "macOS")
  = match cls with macOSDevice => true | _ => false end.
Proof. destruct cls; vm_compute; reflexivity. Qed.

Lemma load_data_parsed cls fs s d :
  fs (data_dir s) (file_name cls) = Parsed d ->
  load_data cls fs s = (Ok tt, loaded d s).
Proof. unfold load_data, loaded, file_name. intros ->. reflexivity. Qed.

Lemma load_data_absent cls fs s :
  fs (data_dir s) (file_name cls) = Absent ->
  load_data cls fs s = (Raise FileNotFoundError, s).
Proof. unfold load_data, file_name. intros ->. reflexivity. Qed.

Lemma load_data_malformed cls fs s :
  fs (data_dir s) (file_name cls) = Malformed ->
  load_data cls fs s = (Raise JSONDecodeError, s).
Proof. unfold load_data, file_name. intros ->. reflexivity. Qed.

(** The iOS loop when [system_versions] is a list: the first suffix it
    reaches raises, before anything is appended. *)
Lemma ios_loop_list md l s :
  system_versions s = VersionList l ->
  for_ md (fun '(model_id, suffixes) =>
    let base_model :=
      if negb (str_eqb model_id (py "SE"))
      then py "iPhone " ++ model_id else py "iPhone SE" in
    for_ suffixes (fun suffix =>
      let model_name := strip (base_model ++ suffix) in
      vs <- read system_versions ;;
      majors <- lift (version_items vs) ;;
      for_ majors (fun '(major, minors) =>
        for_ minors (fun '(minor, patches) =>
          append_device model_name (ios_version major minor patches)
            (py "default"))))) s
  = match ios_names md with
    | [] => (Ok tt, s)
    | _ :: _ => (Raise AttributeError, s)
    end.
Proof.
  intro Hv. induction md as [|[model_id suffixes] md IH]; [reflexivity|].
  cbn [for_ ios_names flat_map]. destruct suffixes as [|suffix suffixes].
  - cbn [for_ map app]. unfold seq_ at 1, ret. exact IH.
  - cbn [for_ map app]. unfold seq_, read, lift. rewrite Hv. reflexivity.
Qed.

Lemma _generate_cached cls fs s :
  device_list s <> [] -> _generate cls fs s = (Ok tt, s).
Proof.
  intro H. unfold _generate, seq_ at 1, read.
  destruct (device_list s); [congruence | reflexivity].
Qed.

Lemma _generate_parsed cls fs s d :
  device_list s = [] ->
  fs (data_dir s) (file_name cls) = Parsed d ->
  _generate cls fs s = generated cls d s.
Proof.
  intros Hl Hf. unfold _generate, seq_ at 1, read. rewrite Hl.
  unfold seq_ at 1. rewrite (load_data_parsed _ _ _ _ Hf).
  unfold seq_ at 1, write. rewrite platform_ios, platform_macos.
  unfold generated. set (s0 := set_device_list [] (loaded d s)).
  destruct cls; cbn [pairs pack_default];
    try (unfold seq_ at 1, read; rewrite flat_loop; reflexivity).
  unfold seq_ at 1, read. unfold seq_ at 1, lift.
  destruct (device_models s0) as [ml|md] eqn:Hm; cbn [model_items];
    [reflexivity|].
  cbv beta iota.
  destruct (system_versions s0) as [vl|vd] eqn:Hv.
  - etransitivity; [exact (ios_loop_list md vl s0 Hv)|].
    now destruct (ios_names md).
  - exact (ios_loop md vd s0 Hv).
Qed.

Lemma _generate_absent cls fs s :
  device_list s = [] ->
  fs (data_dir s) (file_name cls) = Absent ->
  _generate cls fs s = (Raise FileNotFoundError, s).
Proof.
  intros Hl Hf. unfold _generate, seq_ at 1, read. rewrite Hl.
  unfold seq_ at 1. now rewrite (load_data_absent _ _ _ Hf).
Qed.

Lemma _generate_malformed cls fs s :
  device_list s = [] ->
  fs (data_dir s) (file_name cls) = Malformed ->
  _generate cls fs s = (Raise JSONDecodeError, s).
Proof.
  intros Hl Hf. unfold _generate, seq_ at 1, read. rewrite Hl.
  unfold seq_ at 1. now rewrite (load_data_malformed _ _ _ Hf).
Qed.

(** [_random_device] is [_generate] followed by the seven selections on
    the attributes it leaves. *)
Lemma _random_device_spec cls fs h s :
  _random_device cls fs h s
  = match _generate cls fs s with
    | (Ok _, s1) => (select cls h s1, s1)
    | (Raise e, s1) => (Raise e, s1)
    end.
Proof.
  unfold _random_device, seq_ at 1.
  destruct (_generate cls fs s) as [[[]|e] s1]; [|reflexivity].
  unfold select, seq_, read, lift, ret, bind.
  repeat match goal with
         | |- context [_hash_to_value ?c ?k ?l] =>
             destruct (_hash_to_value c k l); try reflexivity
         end.
Qed.

Lemma _generate_eq cls fs a :
  _generate cls fs a
  = match device_list a with
    | _ :: _ => (Ok tt, a)
    | [] =>
        match fs (data_dir a) (file_name cls) with
        | Absent => (Raise FileNotFoundError, a)
        | Malformed => (Raise JSONDecodeError, a)
        | Parsed d => generated cls d a
        end
    end.
Proof.
  destruct (device_list a) eqn:Hl.
  - destruct (fs (data_dir a) (file_name cls)) eqn:Hf.
    + now apply _generate_absent.
    + now apply _generate_malformed.
    + now apply _generate_parsed.
  - apply _generate_cached. congruence.
Qed.

(** ** Calls of [get_random_device] in closed form *)

Lemma platform_classes_platform cls : platform_classes (platform cls) = Some cls.
Proof. destruct cls; vm_compute; reflexivity. Qed.

Lemma str_eqb_eq a b : str_eqb a b = true -> a = b.
Proof. unfold str_eqb. now destruct (list_eq_dec Z.eq_dec a b). Qed.

Lemma platform_classes_some name cls :
  platform_classes name = Some cls -> name = platform cls.
Proof.
  unfold platform_classes.
  repeat match goal with
         | |- context [str_eqb name ?l] =>
             destruct (str_eqb name l) eqn:?H
         end;
  intro E; inversion E; subst;
  match goal with H : str_eqb _ _ = true |- _ => now apply str_eqb_eq in H end.
Qed.

Lemma get_random_device_eq fs urandom name unique_id dir p :
  get_random_device fs urandom name unique_id dir p
  = match platform_classes name with
    | None => (Raise (ValueError (py "Unsupported platform: " ++ name)), p)
    | Some cls =>
        let a := set_data_dir dir (p cls) in
        match _str_to_hash_id urandom unique_id with
        | Raise e => (Raise e, update p cls a)
        | Ok h =>
            match _generate cls fs a with
            | (Ok _, a1) =>
                (do info <- select cls h a1; Ok (serialize info),
                 update p cls a1)
            | (Raise e, a1) => (Raise e, update p cls a1)
            end
        end
    end.
Proof.
  unfold get_random_device. destruct (platform_classes name) as [cls|];
    [|reflexivity].
  cbv zeta. unfold random_device, seq_ at 1, lift.
  destruct (_str_to_hash_id urandom unique_id) as [h|e]; [|reflexivity].
  unfold seq_ at 1. rewrite _random_device_spec.
  destruct (_generate cls fs (set_data_dir dir (p cls))) as [[[]|e] a1];
    [|reflexivity].
  unfold ret, serialize. now destruct (select cls h a1).
Qed.

Lemma update_same p cls a : update p cls a cls = a.
Proof. unfold update. now destruct cls. Qed.

Lemma update_other p cls a c : c <> cls -> update p cls a c = p c.
Proof. unfold update. destruct c, cls; simpl; congruence. Qed.

Lemma device_class_eq_dec (a b : device_class) : {a = b} + {a <> b}.
Proof. decide equality. Qed.

(** ** What the expansion leaves behind *)

Lemma generated_data_dir cls d s : data_dir (snd (generated cls d s)) = data_dir s.
Proof. unfold generated. now destruct (pairs cls _). Qed.

Lemma generated_depends_on_dir cls d s :
  generated cls d s = generated cls d (set_data_dir (data_dir s) initial).
Proof. reflexivity. Qed.

Lemma generated_raise cls d s e :
  fst (generated cls d s) = Raise e -> device_list (snd (generated cls d s)) = [].
Proof. unfold generated. destruct (pairs cls _); simpl; [discriminate | reflexivity]. Qed.

Lemma generated_nonempty_ok cls d s :
  device_list (snd (generated cls d s)) <> [] -> fst (generated cls d s) = Ok tt.
Proof.
  destruct (fst (generated cls d s)) as [[]|e] eqn:E; [reflexivity|].
  intro H. now rewrite (generated_raise _ _ _ _ E) in H.
Qed.

Lemma generated_lang_packs cls d s :
  lang_packs (snd (generated cls d s)) = lang_packs (loaded d s).
Proof. unfold generated. now destruct (pairs cls _). Qed.

Lemma set_data_dir_generated cls d dir s :
  data_dir s = dir ->
  set_data_dir dir (snd (generated cls d s)) = snd (generated cls d s).
Proof.
  intros <-. rewrite <- (generated_data_dir cls d s) at 1.
  now destruct (snd (generated cls d s)).
Qed.

(** ** The cache invariant *)

Lemma cache_ok_fresh fs dir : cache_ok fs dir fresh.
Proof. intro cls. now left. Qed.

Lemma set_data_dir_cached fs dir p cls :
  cache_ok fs dir p ->
  device_list (p cls) <> [] ->
  set_data_dir dir (p cls) = p cls
  /\ exists d, fs dir (file_name cls) = Parsed d
               /\ p cls = snd (generated cls d (set_data_dir dir initial)).
Proof.
  intros Hc Hl. destruct (Hc cls) as [E|[d [Hf E]]]; [congruence|].
  split; [|now exists d].
  rewrite E. now apply set_data_dir_generated.
Qed.

(** The attributes a call leaves for its class: the cached ones, or the
    ones generated from the file of [dir]. *)
Lemma _generate_cache_ok fs dir p cls :
  cache_ok fs dir p ->
  let a1 := snd (_generate cls fs (set_data_dir dir (p cls))) in
  device_list a1 = []
  \/ exists d, fs dir (file_name cls) = Parsed d
               /\ a1 = snd (generated cls d (set_data_dir dir initial)).
Proof.
  intros Hc. cbv zeta. rewrite _generate_eq.
  destruct (device_list (set_data_dir dir (p cls))) as [|x l] eqn:Hl.
  - cbn [data_dir set_data_dir].
    destruct (fs dir (file_name cls)) as [| |d] eqn:Hf; try (now left).
    right. exists d. split; reflexivity.
  - assert (Hn : device_list (p cls) <> []) by (cbn in Hl; congruence).
    destruct (set_data_dir_cached fs dir p cls Hc Hn) as [E1 E2].
    right. cbn [snd]. now rewrite E1.
Qed.

Lemma cache_ok_call fs dir p urandom name unique_id :
  cache_ok fs dir p ->
  cache_ok fs dir (snd (get_random_device fs urandom name unique_id dir p)).
Proof.
  intros Hc. rewrite get_random_device_eq.
  destruct (platform_classes name) as [cls|]; [|exact Hc].
  cbv zeta. intro c.
  destruct (device_class_eq_dec c cls) as [->|Hne].
  - destruct (_str_to_hash_id urandom unique_id) as [h|e].
    + pose proof (_generate_cache_ok fs dir p cls Hc) as H. cbv zeta in H.
      destruct (_generate cls fs (set_data_dir dir (p cls))) as [[[]|e] a1];
        cbn [snd] in *; now rewrite update_same.
    + cbn [snd]. rewrite update_same.
      destruct (Hc cls) as [E|[d [Hf E]]]; [now left|].
      right. exists d. split; [exact Hf|].
      rewrite E at 1. now apply set_data_dir_generated.
  - destruct (_str_to_hash_id urandom unique_id) as [h|e];
      [destruct (_generate cls fs (set_data_dir dir (p cls))) as [[[]|e] a1]|];
      cbn [snd]; rewrite update_other by exact Hne; apply Hc.
Qed.

Lemma serving_cache_ok fs dir p : serving fs dir p -> cache_ok fs dir p.
Proof.
  induction 1 as [|urandom name unique_id p _ IH].
  - apply cache_ok_fresh.
  - now apply cache_ok_call.
Qed.

(** A call in a process that serves one directory selects the record a
    fresh read of the data file would give. *)
Lemma record_answer fs dir p urandom name unique_id cls :
  cache_ok fs dir p ->
  platform_classes name = Some cls ->
  record_of fs urandom name unique_id dir p
  = do h <- _str_to_hash_id urandom unique_id; answer_record fs dir cls h.
Proof.
  intros Hc Hp. unfold record_of. rewrite Hp.
  destruct (_str_to_hash_id urandom unique_id) as [h|e]; [|reflexivity].
  cbn [bind]. unfold answer_record. rewrite _random_device_spec, _generate_eq.
  destruct (device_list (set_data_dir dir (p cls))) as [|x l] eqn:Hl.
  - cbn [data_dir set_data_dir].
    destruct (fs dir (file_name cls)) as [| |d]; try reflexivity.
    rewrite (generated_depends_on_dir cls d (set_data_dir dir (p cls))).
    cbn [data_dir set_data_dir].
    now destruct (generated cls d (set_data_dir dir initial)) as [[[]|e] a1].
  - assert (Hn : device_list (p cls) <> []) by (cbn in Hl; congruence).
    destruct (set_data_dir_cached fs dir p cls Hc Hn) as [E1 [d [Hf E2]]].
    rewrite E1, Hf. cbn [fst].
    assert (Hok : fst (generated cls d (set_data_dir dir initial)) = Ok tt).
    { apply generated_nonempty_ok. now rewrite <- E2. }
    rewrite E2.
    destruct (generated cls d (set_data_dir dir initial)) as [[[]|e] a1];
      [reflexivity | discriminate].
Qed.

(** Every call keeps the [lang_packs] of every class free of empty
    strings. *)
Lemma packs_ok_fresh : packs_ok fresh.
Proof. intro cls. constructor. Qed.

Lemma loaded_lang_packs_nonempty d s :
  Forall (fun lp => lp <> []) (lang_packs (loaded d s)).
Proof.
  unfold loaded, load_data. cbn [snd lang_packs].
  set (l := get (key_lang_packs d) [JStr (py "default")]).
  assert (H : Forall (fun lp : str => lp <> [])
                (flat_map (fun lp => match lp with
                                     | JStr (c :: r) => [c :: r]
                                     | _ => []
                                     end) l)).
  { induction l as [|e l IH]; [constructor|]. cbn [flat_map].
    apply Forall_app. split; [|exact IH].
    destruct e as [| | |[|c r]| |]; repeat constructor. discriminate. }
  destruct (flat_map _ l); [repeat constructor; discriminate | exact H].
Qed.

Lemma packs_ok_call fs urandom name unique_id dir p :
  packs_ok p ->
  packs_ok (snd (get_random_device fs urandom name unique_id dir p)).
Proof.
  intros Hp. rewrite get_random_device_eq.
  destruct (platform_classes name) as [cls|]; [|exact Hp].
  cbv zeta. intro c.
  assert (Ha : forall a1,
    a1 = set_data_dir dir (p cls)
    \/ (exists d, a1 = snd (generated cls d (set_data_dir dir (p cls)))) ->
    Forall (fun lp => lp <> []) (lang_packs (update p cls a1 c))).
  { intros a1 H. destruct (device_class_eq_dec c cls) as [->|Hne].
    - rewrite update_same. destruct H as [->|[d ->]].
      + apply Hp.
      + rewrite generated_lang_packs. apply loaded_lang_packs_nonempty.
    - rewrite update_other by exact Hne. apply Hp. }
  destruct (_str_to_hash_id urandom unique_id) as [h|e];
    [|apply Ha; now left].
  rewrite _generate_eq.
  destruct (device_list (set_data_dir dir (p cls)));
    [destruct (fs _ _) as [| |d]|]; cbn [snd].
  1,2,4: apply Ha; now left.
  destruct (generated cls d (set_data_dir dir (p cls))) as [[[]|e] a1] eqn:E;
    cbn [snd]; apply Ha; right; exists d; now rewrite E.
Qed.

Lemma reachable_packs_ok p : reachable p -> packs_ok p.
Proof.
  induction 1; [apply packs_ok_fresh | now apply packs_ok_call].
Qed.

(** ** Selection *)

Lemma pick_index {T : Type} (h : Z) (vs : list T) :
  vs <> [] -> (Z.to_nat (h mod Z.of_nat (length vs)) < length vs)%nat.
Proof.
  intro H. assert (0 < Z.of_nat (length vs)) by (destruct vs; [congruence | cbn; lia]).
  pose proof (Z.mod_pos_bound h (Z.of_nat (length vs))). lia.
Qed.

Lemma _hash_to_value_pick {T : Type} cls (h offset : Z) (vs : list T) default :
  vs <> [] -> _hash_to_value cls (h + offset) vs = Ok (pick h offset vs default).
Proof.
  intro H. unfold _hash_to_value, pick. destruct vs as [|v vs']; [congruence|].
  f_equal. apply nth_indep. now apply pick_index.
Qed.

Lemma _hash_to_value_In {T : Type} cls (h : Z) (vs : list T) v :
  _hash_to_value cls h vs = Ok v -> In v vs.
Proof.
  intro H. assert (Hne : vs <> []) by (intros ->; discriminate).
  rewrite <- (Z.add_0_r h), (_hash_to_value_pick cls h 0 vs v Hne) in H.
  injection H as <-. apply nth_In, pick_index, Hne.
Qed.

Lemma _hash_to_value_empty {T : Type} cls (h : Z) :
  _hash_to_value cls h (@nil T)
  = Raise (ValueError (py "No values available for " ++ platform cls)).
Proof. reflexivity. Qed.

(** C5. For every base hash [h] and non-empty candidate list, selection
    returns the element at index [(h + offset) mod len], the offset being
    added before the modulo; [_random_device] selects the device with
    offset 0, then lang_code, system_lang_code, app_version, lang_pack,
    api_id and api_hash with offsets 1 to 6. *)
Theorem selection_by_offset :
  forall (T : Type) (vs : list T) (offset : Z) (default : T)
         cls fs (h : Z) s s1 (d0 : DeviceInfo.t) (e0 : str),
    vs <> [] ->
    _generate cls fs s = (Ok tt, s1) ->
    device_list s1 <> [] -> lang_codes s1 <> [] ->
    system_lang_codes s1 <> [] -> app_versions s1 <> [] ->
    lang_packs s1 <> [] -> api_id s1 <> [] -> api_hash s1 <> [] ->
    _hash_to_value cls (h + offset) vs
    = Ok (nth (Z.to_nat ((h + offset) mod Z.of_nat (length vs))) vs default)
    /\ _random_device cls fs h s
       = (Ok (DeviceInfo.mk
                (DeviceInfo.device_model (pick h 0 (device_list s1) d0))
                (DeviceInfo.system_version (pick h 0 (device_list s1) d0))
                (pick h 1 (lang_codes s1) e0)
                (pick h 2 (system_lang_codes s1) e0)
                (pick h 3 (app_versions s1) e0)
                (pick h 4 (lang_packs s1) e0)
                (pick h 5 (api_id s1) e0)
                (pick h 6 (api_hash s1) e0)),
          s1).
Proof.
  intros T vs offset default cls fs h s s1 d0 e0 Hvs Hg H0 H1 H2 H3 H4 H5 H6.
  split; [exact (_hash_to_value_pick cls h offset vs default Hvs)|].
  rewrite _random_device_spec, Hg. unfold select.
  rewrite <- (Z.add_0_r h) at 1.
  rewrite (_hash_to_value_pick cls h 0 _ d0 H0).
  rewrite (_hash_to_value_pick cls h 1 _ e0 H1).
  rewrite (_hash_to_value_pick cls h 2 _ e0 H2).
  rewrite (_hash_to_value_pick cls h 3 _ e0 H3).
  rewrite (_hash_to_value_pick cls h 4 _ e0 H4).
  rewrite (_hash_to_value_pick cls h 5 _ e0 H5).
  rewrite (_hash_to_value_pick cls h 6 _ e0 H6).
  reflexivity.
Qed.

(** ** The identifier hash *)

Lemma be_bytes_range n x : Forall is_byte (SHA1.be_bytes n x).
Proof.
  induction n as [|n IH]; cbn [SHA1.be_bytes]; constructor; [|exact IH].
  apply Z.mod_pos_bound. lia.
Qed.

Lemma be_bytes_length n x : length (SHA1.be_bytes n x) = n.
Proof. induction n as [|n IH]; cbn [SHA1.be_bytes length]; congruence. Qed.

Lemma compress_length h block : length (SHA1.compress h block) = 5%nat.
Proof.
  unfold SHA1.compress.
  destruct (fold_left _ _ _) as [[[[a b] c] d] e]. reflexivity.
Qed.

Lemma blocks_length n : forall h bs,
  length h = 5%nat -> length (SHA1.blocks n h bs) = 5%nat.
Proof.
  induction n as [|n IH]; intros h bs Hh; cbn [SHA1.blocks]; [exact Hh|].
  apply IH, compress_length.
Qed.

Lemma digest_range msg : Forall is_byte (SHA1.digest msg).
Proof.
  unfold SHA1.digest. cbv zeta.
  induction (SHA1.blocks _ _ _) as [|w ws IH]; cbn [flat_map]; [constructor|].
  apply Forall_app. split; [apply be_bytes_range | exact IH].
Qed.

Lemma digest_length msg : length (SHA1.digest msg) = 20%nat.
Proof.
  unfold SHA1.digest. cbv zeta.
  pose proof (blocks_length (length (SHA1.pad msg) / 64) SHA1.H0 (SHA1.pad msg)
                eq_refl) as H.
  destruct (SHA1.blocks _ _ _) as [|a [|b [|c [|d [|e [|x l]]]]]];
    try discriminate H.
  cbn [flat_map]. rewrite !length_app, !be_bytes_length. reflexivity.
Qed.

Lemma hex_value_digit x : 0 <= x < 16 -> hex_value (SHA1.hex_digit x) = Some x.
Proof.
  intro H. unfold SHA1.hex_digit, hex_value.
  destruct (Z.ltb_spec x 10).
  - replace ((48 <=? 48 + x) && (48 + x <=? 57)) with true; [f_equal; lia|].
    symmetry. apply andb_true_iff. split; apply Z.leb_le; lia.
  - replace ((48 <=? 87 + x) && (87 + x <=? 57)) with false.
    + replace ((97 <=? 87 + x) && (87 + x <=? 102)) with true; [f_equal; lia|].
      symmetry. apply andb_true_iff. split; apply Z.leb_le; lia.
    + symmetry. apply andb_false_iff. right. apply Z.leb_gt. lia.
Qed.

Lemma int16_from_hex bs : forall acc,
  Forall is_byte bs ->
  int16_from acc
    (flat_map (fun b => [SHA1.hex_digit (b / 16); SHA1.hex_digit (b mod 16)]) bs)
  = Some (fold_left (fun acc b => acc * 256 + b) bs acc).
Proof.
  induction bs as [|b bs IH]; intros acc Hb; [reflexivity|].
  inversion Hb as [|? ? Hb0 Hbs]; subst. unfold is_byte in Hb0.
  cbn [flat_map app int16_from fold_left].
  rewrite hex_value_digit
    by (split; [apply Z.div_pos | apply Z.div_lt_upper_bound]; lia).
  rewrite hex_value_digit by (apply Z.mod_pos_bound; lia).
  rewrite IH by exact Hbs. do 2 f_equal.
  pose proof (Z.div_mod b 16). lia.
Qed.

Lemma int16_hexdigest msg :
  int16 (SHA1.hexdigest msg) = Ok (SHA1.be_value (SHA1.digest msg)).
Proof.
  unfold int16, SHA1.hexdigest, SHA1.be_value.
  rewrite int16_from_hex by apply digest_range.
  pose proof (digest_length msg) as H.
  destruct (SHA1.digest msg); [discriminate H | reflexivity].
Qed.

Lemma be_value_bound bs :
  Forall is_byte bs ->
  0 <= SHA1.be_value bs < 256 ^ Z.of_nat (length bs).
Proof.
  unfold SHA1.be_value. intro H.
  assert (G : forall acc n, 0 <= acc < 256 ^ n -> 0 <= n ->
            0 <= fold_left (fun acc b => acc * 256 + b) bs acc
              < 256 ^ (n + Z.of_nat (length bs))).
  { induction H as [|b bs Hb _ IH]; intros acc n Ha Hn.
    - cbn. now rewrite Z.add_0_r.
    - cbn [fold_left length]. unfold is_byte in Hb.
      replace (n + Z.of_nat (S (length bs)))
        with ((n + 1) + Z.of_nat (length bs)) by lia.
      apply IH; [|lia]. rewrite Z.pow_add_r, Z.pow_1_r by lia. nia. }
  apply (G 0 0); lia.
Qed.

Lemma encode_char_scalar c :
  scalar_value c -> exists b, UTF8.encode_char c = Some b.
Proof.
  intros [Hr Hs]. unfold UTF8.encode_char, UTF8.is_surrogate.
  destruct (Z.ltb_spec c 0); [lia|].
  destruct (Z.ltb_spec c 0x80); [eauto|].
  destruct (Z.ltb_spec c 0x800); [eauto|].
  destruct (Z.ltb_spec c 0x10000).
  - destruct (Z.leb_spec 0xD800 c), (Z.leb_spec c 0xDFFF); cbn [andb];
      solve [eauto | lia].
  - destruct (Z.ltb_spec c 0x110000); [eauto | lia].
Qed.

Lemma encode_scalar s :
  Forall scalar_value s -> exists b, UTF8.encode s = Ok b.
Proof.
  unfold UTF8.encode. induction 1 as [|c s Hc _ [b IH]]; cbn [UTF8.encode_opt].
  - now exists [].
  - destruct (encode_char_scalar c Hc) as [bc ->].
    destruct (UTF8.encode_opt s) as [bs|]; [|discriminate]. eauto.
Qed.

(** C9. For every present identifier, stringified first when it is not
    a string, the hash is the SHA-1 digest of the UTF-8 bytes of that
    text, read as an unsigned big-endian integer and reduced modulo
    10^12; whatever it returns lies in [0, 10^12), and a non-string
    input hashes as its string form does.  Text made of Unicode scalar
    values always encodes; a lone surrogate makes [str.encode] raise.
    The bytes are those of UTF-8: two for U+00E9, three for U+20AC,
    four for U+1F600. *)
Theorem hash_is_sha1_mod_10_12 :
  forall (urandom : bytes) (u : unique_id) (s : str),
    text_of u = Some s ->
    _str_to_hash_id urandom u
    = (do b <- UTF8.encode s; Ok (SHA1.be_value (SHA1.digest b) mod 10 ^ 12))
    /\ (forall b, 0 <= SHA1.be_value (SHA1.digest b) < 2 ^ 160)
    /\ (forall h, _str_to_hash_id urandom u = Ok h -> 0 <= h < 10 ^ 12)
    /\ _str_to_hash_id urandom u = _str_to_hash_id urandom (IdStr s)
    /\ (Forall scalar_value s ->
        exists b, UTF8.encode s = Ok b
                  /\ _str_to_hash_id urandom u
                     = Ok (SHA1.be_value (SHA1.digest b) mod 10 ^ 12))
    /\ UTF8.encode [0xE9; 0x20AC; 0x1F600]
       = Ok [0xC3; 0xA9; 0xE2; 0x82; 0xAC; 0xF0; 0x9F; 0x98; 0x80]
    /\ _str_to_hash_id urandom (IdStr [0xE9]) = Ok 54226483005
    /\ _str_to_hash_id urandom (IdStr [0xE9; 0x20AC; 0x1F600])
       = Ok 496326289201.
Proof.
  intros urandom u s Ht.
  assert (E : _str_to_hash_id urandom u = _str_to_hash_id urandom (IdStr s)).
  { destruct u; cbn in Ht; try discriminate; now inversion Ht. }
  assert (F : _str_to_hash_id urandom (IdStr s)
              = (do b <- UTF8.encode s;
                 Ok (SHA1.be_value (SHA1.digest b) mod 10 ^ 12))).
  { unfold _str_to_hash_id. destruct (UTF8.encode s) as [b|e]; [|reflexivity].
    cbn [bind]. now rewrite int16_hexdigest. }
  split; [now rewrite E|].
  split.
  { intro b. pose proof (be_value_bound (SHA1.digest b) (digest_range b)) as H.
    rewrite digest_length in H. exact H. }
  split.
  { intros h. rewrite E, F. destruct (UTF8.encode s) as [b|e]; [|discriminate].
    cbn [bind]. intro H. injection H as <-. apply Z.mod_pos_bound. lia. }
  split; [exact E|].
  split.
  { intro Hs. destruct (encode_scalar s Hs) as [b Hb]. exists b.
    split; [exact Hb|]. now rewrite E, F, Hb. }
  split; [vm_compute; reflexivity|].
  split; vm_compute; reflexivity.
Qed.

(** ** Calls and the record they serialize *)

Lemma call_record fs urandom name unique_id dir p :
  fst (get_random_device fs urandom name unique_id dir p)
  = do info <- record_of fs urandom name unique_id dir p; Ok (serialize info).
Proof.
  rewrite get_random_device_eq. unfold record_of.
  destruct (platform_classes name) as [cls|]; [|reflexivity]. cbv zeta.
  destruct (_str_to_hash_id urandom unique_id) as [h|e]; [|reflexivity].
  cbn [bind]. rewrite _random_device_spec.
  now destruct (_generate cls fs (set_data_dir dir (p cls))) as [[[]|e] a1].
Qed.

(** A successful call: its class, its hash, the attributes it leaves and
    the record selected from them. *)
Lemma call_ok fs urandom name unique_id dir p out :
  fst (get_random_device fs urandom name unique_id dir p) = Ok out ->
  exists cls h info,
    platform_classes name = Some cls
    /\ _str_to_hash_id urandom unique_id = Ok h
    /\ record_of fs urandom name unique_id dir p = Ok info
    /\ select cls h
         (snd (get_random_device fs urandom name unique_id dir p) cls)
       = Ok info
    /\ out = serialize info.
Proof.
  rewrite call_record. unfold record_of. rewrite get_random_device_eq.
  destruct (platform_classes name) as [cls|]; [|discriminate]. cbv zeta.
  destruct (_str_to_hash_id urandom unique_id) as [h|e]; [|discriminate].
  cbn [bind]. rewrite _random_device_spec.
  destruct (_generate cls fs (set_data_dir dir (p cls))) as [[[]|e] a1];
    [|discriminate].
  cbn [fst snd].
  destruct (select cls h a1) as [info|e] eqn:E; [|discriminate].
  cbn [bind]. intro H. injection H as <-.
  exists cls, h, info. rewrite update_same.
  repeat split; reflexivity || assumption.
Qed.

(** What a successful selection says about each field. *)
Lemma select_ok cls h s info :
  select cls h s = Ok info ->
  (exists dev, In dev (device_list s)
               /\ model_version info = model_version dev)
  /\ In (DeviceInfo.lang_code info) (lang_codes s)
  /\ In (DeviceInfo.system_lang_code info) (system_lang_codes s)
  /\ In (DeviceInfo.app_version info) (app_versions s)
  /\ In (DeviceInfo.lang_pack info) (lang_packs s)
  /\ In (DeviceInfo.api_id info) (api_id s)
  /\ In (DeviceInfo.api_hash info) (api_hash s).
Proof.
  unfold select.
  destruct (_hash_to_value cls h (device_list s)) as [dev|] eqn:E0;
    [|discriminate].
  destruct (_hash_to_value cls (h + 1) (lang_codes s)) eqn:E1; [|discriminate].
  destruct (_hash_to_value cls (h + 2) (system_lang_codes s)) eqn:E2;
    [|discriminate].
  destruct (_hash_to_value cls (h + 3) (app_versions s)) eqn:E3; [|discriminate].
  destruct (_hash_to_value cls (h + 4) (lang_packs s)) eqn:E4; [|discriminate].
  destruct (_hash_to_value cls (h + 5) (api_id s)) eqn:E5; [|discriminate].
  destruct (_hash_to_value cls (h + 6) (api_hash s)) eqn:E6; [|discriminate].
  cbn [bind]. intro H. injection H as <-. cbn.
  repeat split; eauto using _hash_to_value_In.
Qed.

Lemma call_answer fs dir p urandom name unique_id cls :
  cache_ok fs dir p ->
  platform_classes name = Some cls ->
  fst (get_random_device fs urandom name unique_id dir p)
  = do h <- _str_to_hash_id urandom unique_id; answer fs dir cls h.
Proof.
  intros Hc Hp. rewrite call_record, (record_answer fs dir p _ _ _ cls Hc Hp).
  now destruct (_str_to_hash_id urandom unique_id).
Qed.

(** ** [strip] *)

(** A text that begins and ends with a code point that is not white
    space is left alone by [strip]. *)
Lemma lstrip_head c s : is_space c = false -> lstrip (c :: s) = c :: s.
Proof. intro H. cbn [lstrip]. now rewrite H. Qed.

Lemma strip_ends x :
  (x = [] \/ exists c y d z, x = c :: y /\ x = z ++ [d]
                             /\ is_space c = false /\ is_space d = false) ->
  strip x = x.
Proof.
  intros [->|[c [y [d [z [E1 [E2 [Hc Hd]]]]]]]]; [reflexivity|].
  unfold strip, rstrip. rewrite E1, (lstrip_head c y Hc), <- E1, E2.
  rewrite rev_app_distr. cbn [rev app]. rewrite (lstrip_head d _ Hd).
  change (d :: rev z) with (rev [d] ++ rev z).
  now rewrite <- rev_app_distr, rev_involutive.
Qed.


(** What [lstrip] removes is white space, and what it leaves does not
    begin with white space. *)
Lemma lstrip_spec x :
  exists pre, x = pre ++ lstrip x
              /\ Forall (fun c => is_space c = true) pre
              /\ (lstrip x = []
                  \/ exists c y, lstrip x = c :: y /\ is_space c = false).
Proof.
  induction x as [|c x [pre [E [Hp Hs]]]].
  - exists []. repeat split; [constructor | now left].
  - cbn [lstrip]. destruct (is_space c) eqn:Hc.
    + exists (c :: pre). cbn [app]. rewrite <- E.
      repeat split; [constructor; assumption | exact Hs].
    + exists []. repeat split; [constructor | right; eauto].
Qed.

Lemma strip_fixed_ends x :
  strip x = []
  \/ exists c y d z, strip x = c :: y /\ strip x = z ++ [d]
                     /\ is_space c = false /\ is_space d = false.
Proof.
  unfold strip, rstrip.
  destruct (lstrip_spec x) as [_ [_ [_ Hhead]]].
  destruct (lstrip_spec (rev (lstrip x))) as [pre [E [Hpre Hlast]]].
  destruct Hlast as [E0|[d [y' [Ed Hd]]]]; [left; now rewrite E0|]. right.
  assert (Ez : lstrip x = rev (lstrip (rev (lstrip x))) ++ rev pre).
  { rewrite <- rev_app_distr, <- E. now rewrite rev_involutive. }
  rewrite Ed in *. cbn [rev] in *.
  destruct Hhead as [E1|[c [y [Ec Hc]]]].
  { rewrite E1 in Ez. destruct (rev y'); discriminate. }
  destruct (rev y') as [|c' t] eqn:Er.
  - cbn [app] in *. exists d, [], d, []. repeat split; try assumption.
  - cbn [app] in *. rewrite Ec in Ez. injection Ez as <- _.
    exists c, (t ++ [d]), d, (c :: t). repeat split; assumption.
Qed.





(** [strip] removes white space at the two ends and nothing else. *)
Lemma strip_trimmed x : trimmed_of x (strip x).
Proof.
  split; [|apply strip_fixed_ends].
  destruct (lstrip_spec x) as [pre [E [Hpre _]]].
  destruct (lstrip_spec (rev (lstrip x))) as [post [E' [Hpost _]]].
  exists pre, (rev post). split; [|split; [exact Hpre | now apply Forall_rev]].
  rewrite E at 1. f_equal. unfold strip, rstrip.
  rewrite <- rev_app_distr, <- E'. now rewrite rev_involutive.
Qed.

(** ** Expansion *)

Lemma model_version_entry s pd (l : list (str * str)) :
  map model_version (map (entry s pd) l) = l.
Proof.
  rewrite map_map. rewrite <- (map_id l) at 2. apply map_ext.
  now intros [m v].
Qed.

(** C3. On every platform other than iOS the expanded [DeviceList] is
    the cross product of [device_models] and [system_versions], models
    outermost; with the fixture catalog and the identifier "fixed" the
    selected (model, version) pair is entry [hash("fixed") mod 4] of
    the four pairs, and lang_code, app_version and lang_pack are "en",
    "1.0.0" and "default". *)
Theorem flat_expansion_is_cross_product :
  forall cls fs dir,
    cls <> iOSDevice ->
    (forall s d ms vs,
        device_list s = [] -> data_dir s = dir ->
        fs dir (file_name cls) = Parsed d ->
        key_device_models d = Some (ModelList ms) ->
        key_system_versions d = Some (VersionList vs) ->
        exists s1,
          _generate cls fs s = (Ok tt, s1)
          /\ map model_version (device_list s1) = list_prod ms vs)
    /\ (fs dir (file_name cls) = Parsed Fixture.flat ->
        forall p urandom,
          serving fs dir p ->
          let h := 198834220397 in
          let u := IdStr (py "fixed") in
          _str_to_hash_id urandom u = Ok h
          /\ record_of fs urandom (platform cls) u dir p = Ok Fixture.flat_record
          /\ fst (get_random_device fs urandom (platform cls) u dir p)
             = Ok (serialize Fixture.flat_record)
          /\ model_version Fixture.flat_record
             = nth (Z.to_nat (h mod 4))
                 [(py "ModelA", py "1.0"); (py "ModelA", py "2.0");
                  (py "ModelB", py "1.0"); (py "ModelB", py "2.0")]
                 (py "", py "")
          /\ DeviceInfo.lang_code Fixture.flat_record = py "en"
          /\ DeviceInfo.app_version Fixture.flat_record = py "1.0.0"
          /\ DeviceInfo.lang_pack Fixture.flat_record = py "default").
Proof.
  intros cls fs dir Hcls. split.
  - intros s d ms vs Hl Hd Hf Hm Hv. subst dir.
    rewrite (_generate_parsed cls fs s d Hl Hf). unfold generated.
    set (s0 := set_device_list [] (loaded d s)).
    assert (Hp : pairs cls s0 = Ok (list_prod ms vs)).
    { assert (E1 : device_models s0 = ModelList ms)
        by (cbn; now rewrite Hm).
      assert (E2 : system_versions s0 = VersionList vs)
        by (cbn; now rewrite Hv).
      destruct cls; try contradiction; cbn [pairs]; now rewrite E1, E2. }
    rewrite Hp. eexists. split; [reflexivity|].
    cbn [device_list set_device_list]. apply model_version_entry.
  - intros Hf p urandom Hs h u.
    assert (Hh : _str_to_hash_id urandom u = Ok h) by (vm_compute; reflexivity).
    assert (Ha : answer_record fs dir cls h = Ok Fixture.flat_record).
    { unfold answer_record. rewrite Hf.
      destruct cls; try contradiction; vm_compute; reflexivity. }
    pose proof (serving_cache_ok fs dir p Hs) as Hc.
    split; [exact Hh|].
    split.
    { rewrite (record_answer fs dir p urandom _ u cls Hc
                 (platform_classes_platform cls)), Hh. exact Ha. }
    split.
    { rewrite (call_answer fs dir p urandom _ u cls Hc
                 (platform_classes_platform cls)), Hh.
      cbn [bind]. unfold answer. now rewrite Ha. }
    split; [vm_compute; reflexivity|].
    split; [reflexivity|]. split; reflexivity.
Qed.

(** C4. On iOS every model name is "iPhone {id}" with the suffix
    appended and the white space at the two ends of the whole removed
    ("SE" gives "iPhone SE"), every version is "{major}.{minor}" for an
    empty patch list and "{major}.{minor}.{first patch}" otherwise, and
    the [DeviceList] is the cross product of the names with the
    versions; for the fixture it is exactly "iPhone SE"/"15.0" and
    "iPhone 12 Pro"/"15.0". *)
Theorem ios_expansion_is_cross_product :
  forall fs s d md vd,
    device_list s = [] ->
    fs (data_dir s) (file_name iOSDevice) = Parsed d ->
    key_device_models d = Some (ModelDict md) ->
    key_system_versions d = Some (VersionDict vd) ->
    exists s1,
      _generate iOSDevice fs s = (Ok tt, s1)
      /\ map model_version (device_list s1)
         = list_prod
             (flat_map (fun '(model_id, suffixes) =>
                map (fun suffix => strip (py "iPhone " ++ model_id ++ suffix))
                    suffixes) md)
             (flat_map (fun '(major, minors) =>
                map (fun '(minor, patches) => ios_version major minor patches)
                    minors) vd)
      /\ Forall (fun dev =>
                   exists model_id suffixes suffix,
                     In (model_id, suffixes) md /\ In suffix suffixes
                     /\ trimmed_of (py "iPhone " ++ model_id ++ suffix)
                                   (DeviceInfo.device_model dev))
                (device_list s1)
      /\ (forall suffix,
            trimmed_of (py "iPhone SE" ++ suffix)
                       (strip (py "iPhone " ++ py "SE" ++ suffix)))
      /\ (forall major minor,
            ios_version major minor [] = major ++ py "." ++ minor)
      /\ (forall major minor patch rest,
            ios_version major minor (patch :: rest)
            = major ++ py "." ++ minor ++ py "." ++ patch)
      /\ (d = Fixture.ios ->
          map model_version (device_list s1)
          = [(py "iPhone SE", py "15.0"); (py "iPhone 12 Pro", py "15.0")])
      /\ (d = Fixture.ios_spaced ->
          map model_version (device_list s1)
          = [(py "iPhone SE", py "16.1.2"); (py "iPhone SE", py "16.1.2");
             (py "iPhone 12   Pro Max", py "16.1.2")]).
Proof.
  intros fs s d md vd Hl Hf Hm Hv.
  rewrite (_generate_parsed iOSDevice fs s d Hl Hf). unfold generated.
  set (s0 := set_device_list [] (loaded d s)).
  assert (E1 : device_models s0 = ModelDict md) by (cbn; now rewrite Hm).
  assert (E2 : system_versions s0 = VersionDict vd) by (cbn; now rewrite Hv).
  cbn [pairs]. rewrite E1, E2. eexists. split; [reflexivity|].
  cbn [device_list set_device_list].
  split; [apply model_version_entry|].
  split.
  { apply Forall_forall. intros dev Hin. apply in_map_iff in Hin.
    destruct Hin as [[name version] [<- Hin]].
    apply in_prod_iff in Hin. destruct Hin as [Hn _].
    unfold ios_names in Hn. apply in_flat_map in Hn.
    destruct Hn as [[model_id suffixes] [Hmd Hn]]. apply in_map_iff in Hn.
    destruct Hn as [suffix [<- Hsuf]].
    exists model_id, suffixes, suffix.
    split; [exact Hmd|]. split; [exact Hsuf|]. apply strip_trimmed. }
  split; [intro suffix; apply strip_trimmed|].
  split; [reflexivity|]. split; [reflexivity|].
  rewrite model_version_entry.
  split; intros ->; cbn in Hm, Hv; injection Hm as <-; injection Hv as <-;
    vm_compute; reflexivity.
Qed.

(** ** Calls against a parsed catalog *)

Lemma load_data_ok cls fs s s' :
  load_data cls fs s = (Ok tt, s') ->
  exists d, fs (data_dir s) (file_name cls) = Parsed d /\ s' = loaded d s.
Proof.
  destruct (fs (data_dir s) (file_name cls)) as [| |d] eqn:Hf.
  - now rewrite (load_data_absent _ _ _ Hf).
  - now rewrite (load_data_malformed _ _ _ Hf).
  - rewrite (load_data_parsed _ _ _ _ Hf). intro H. injection H as <-.
    now exists d.
Qed.

(** A successful call in a serving process selected its record from the
    attributes generated from the data file. *)
Lemma serving_call_ok fs dir cls d p urandom u out :
  fs dir (file_name cls) = Parsed d ->
  serving fs dir p ->
  fst (get_random_device fs urandom (platform cls) u dir p) = Ok out ->
  exists h info,
    _str_to_hash_id urandom u = Ok h
    /\ record_of fs urandom (platform cls) u dir p = Ok info
    /\ out = serialize info
    /\ fst (generated cls d (set_data_dir dir initial)) = Ok tt
    /\ select cls h (snd (generated cls d (set_data_dir dir initial))) = Ok info.
Proof.
  intros Hf Hs. pose proof (serving_cache_ok fs dir p Hs) as Hc.
  rewrite call_record.
  rewrite (record_answer fs dir p urandom _ u cls Hc
             (platform_classes_platform cls)).
  destruct (_str_to_hash_id urandom u) as [h|e]; [|discriminate].
  cbn [bind]. unfold answer_record. rewrite Hf.
  destruct (generated cls d (set_data_dir dir initial)) as [[[]|e] s1];
    [|discriminate].
  destruct (select cls h s1) as [info|e] eqn:E; [|discriminate].
  cbn [bind fst snd]. intro H. injection H as <-.
  now exists h, info.
Qed.





Lemma dropped_all_filtered l :
  Forall dropped l ->
  flat_map (fun lp => match lp with
                      | JStr (c :: r) => [c :: r]
                      | _ => []
                      end) l = [].
Proof.
  induction 1 as [|e l He _ IH]; [reflexivity|]. cbn [flat_map].
  rewrite IH. now destruct e as [| | |[|c r]| |].
Qed.

(** C7, as the code has it. After loading, [lang_packs] holds only
    non-empty strings; when the filter leaves nothing it becomes the
    single value "en-US" ("default" is only the value of an absent
    key), so for a catalog whose [lang_packs] holds only empty or
    non-string entries every record has lang_pack "en-US". *)
Theorem lang_packs_fallback_is_en_US :
  forall cls fs dir d l,
    fs dir (file_name cls) = Parsed d ->
    key_lang_packs d = Some l ->
    Forall dropped l ->
    (forall fs' c s s',
        load_data c fs' s = (Ok tt, s') ->
        Forall (fun lp => lp <> []) (lang_packs s'))
    /\ (forall s, data_dir s = dir ->
          exists s', load_data cls fs s = (Ok tt, s')
                     /\ lang_packs s' = [py "en-US"])
    /\ (forall p urandom u out,
          serving fs dir p ->
          fst (get_random_device fs urandom (platform cls) u dir p) = Ok out ->
          exists info,
            record_of fs urandom (platform cls) u dir p = Ok info
            /\ out = serialize info
            /\ DeviceInfo.lang_pack info = py "en-US").
Proof.
  intros cls fs dir d l Hf Hk Hd.
  assert (Hl : forall s, lang_packs (loaded d s) = [py "en-US"]).
  { intro s. unfold loaded, load_data. cbn [snd lang_packs].
    rewrite Hk. cbn [get]. now rewrite (dropped_all_filtered l Hd). }
  repeat split.
  - intros fs' c s s' H. destruct (load_data_ok c fs' s s' H) as [d' [_ ->]].
    apply loaded_lang_packs_nonempty.
  - intros s <-. exists (loaded d s). split; [|apply Hl].
    now apply load_data_parsed.
  - intros p urandom u out Hs Hout.
    destruct (serving_call_ok fs dir cls d p urandom u out Hf Hs Hout)
      as [h [info [_ [Hr [Ho [_ Hsel]]]]]].
    exists info. repeat split; try assumption.
    apply select_ok in Hsel. destruct Hsel as [_ [_ [_ [_ [Hin _]]]]].
    rewrite generated_lang_packs, Hl in Hin.
    destruct Hin as [<-|[]]. reflexivity.
Qed.

Lemma generated_api_id cls d s :
  api_id (snd (generated cls d s)) = api_id (loaded d s)
  /\ api_hash (snd (generated cls d s)) = api_hash (loaded d s).
Proof. unfold generated. now destruct (pairs cls _). Qed.

(** C10. When the data file has no [api_id] key (respectively no
    [api_hash] key) the loader takes the list [[""]]: selecting from it
    never fails, and the api_id (respectively api_hash) of every record
    is the empty string. *)
Theorem omitted_credentials_default_to_empty :
  forall cls fs dir d,
    fs dir (file_name cls) = Parsed d ->
    (key_api_id d = None ->
       (forall s, data_dir s = dir ->
          exists s', load_data cls fs s = (Ok tt, s') /\ api_id s' = [py ""])
       /\ (forall h, _hash_to_value cls (h + 5) [py ""] = Ok (py ""))
       /\ (forall p urandom u out,
             serving fs dir p ->
             fst (get_random_device fs urandom (platform cls) u dir p) = Ok out ->
             exists info,
               record_of fs urandom (platform cls) u dir p = Ok info
               /\ out = serialize info
               /\ DeviceInfo.api_id info = py ""))
    /\ (key_api_hash d = None ->
       (forall s, data_dir s = dir ->
          exists s', load_data cls fs s = (Ok tt, s') /\ api_hash s' = [py ""])
       /\ (forall h, _hash_to_value cls (h + 6) [py ""] = Ok (py ""))
       /\ (forall p urandom u out,
             serving fs dir p ->
             fst (get_random_device fs urandom (platform cls) u dir p) = Ok out ->
             exists info,
               record_of fs urandom (platform cls) u dir p = Ok info
               /\ out = serialize info
               /\ DeviceInfo.api_hash info = py "")).
Proof.
  intros cls fs dir d Hf.
  assert (Hone : forall h, _hash_to_value cls h [py ""] = Ok (py "")).
  { intro h. unfold _hash_to_value. cbn [length]. f_equal.
    rewrite Z.mod_1_r. reflexivity. }
  split; intro Hk.
  - assert (Hl : forall s, api_id (loaded d s) = [py ""]).
    { intro s. unfold loaded, load_data. cbn [snd api_id]. now rewrite Hk. }
    repeat split.
    + intros s <-. exists (loaded d s). split; [|apply Hl].
      now apply load_data_parsed.
    + intro h. apply Hone.
    + intros p urandom u out Hs Hout.
      destruct (serving_call_ok fs dir cls d p urandom u out Hf Hs Hout)
        as [h [info [_ [Hr [Ho [_ Hsel]]]]]].
      exists info. repeat split; try assumption.
      apply select_ok in Hsel. destruct Hsel as [_ [_ [_ [_ [_ [Hin _]]]]]].
      rewrite (proj1 (generated_api_id cls d _)), Hl in Hin.
      destruct Hin as [<-|[]]. reflexivity.
  - assert (Hl : forall s, api_hash (loaded d s) = [py ""]).
    { intro s. unfold loaded, load_data. cbn [snd api_hash]. now rewrite Hk. }
    repeat split.
    + intros s <-. exists (loaded d s). split; [|apply Hl].
      now apply load_data_parsed.
    + intro h. apply Hone.
    + intros p urandom u out Hs Hout.
      destruct (serving_call_ok fs dir cls d p urandom u out Hf Hs Hout)
        as [h [info [_ [Hr [Ho [_ Hsel]]]]]].
      exists info. repeat split; try assumption.
      apply select_ok in Hsel. destruct Hsel as [_ [_ [_ [_ [_ [_ Hin]]]]]].
      rewrite (proj2 (generated_api_id cls d _)), Hl in Hin.
      destruct Hin as [<-|[]]. reflexivity.
Qed.

(** ** Determinism *)

Lemma hash_ignores_urandom u1 u2 u :
  u <> IdNone -> _str_to_hash_id u1 u = _str_to_hash_id u2 u.
Proof. intro H. destruct u; [congruence | reflexivity | reflexivity]. Qed.

Lemma call_deterministic fs dir name u u1 u2 p1 p2 :
  u <> IdNone ->
  cache_ok fs dir p1 -> cache_ok fs dir p2 ->
  fst (get_random_device fs u1 name u dir p1)
  = fst (get_random_device fs u2 name u dir p2).
Proof.
  intros Hu H1 H2. destruct (platform_classes name) as [cls|] eqn:Hp.
  - rewrite (call_answer fs dir p1 u1 name u cls H1 Hp).
    rewrite (call_answer fs dir p2 u2 name u cls H2 Hp).
    now rewrite (hash_ignores_urandom u1 u2 u Hu).
  - rewrite !get_random_device_eq, Hp. reflexivity.
Qed.

(** C2. For every platform name and every present identifier, two calls
    against the same catalog data return the same serialized text (or
    raise the same exception): the second of two calls in one process,
    and calls in two processes, whatever either has served before; the
    hash of a present identifier does not depend on anything else. *)
Theorem same_identifier_same_output :
  forall fs dir name u u1 u2 p1 p2,
    u <> IdNone ->
    serving fs dir p1 -> serving fs dir p2 ->
    _str_to_hash_id u1 u = _str_to_hash_id u2 u
    /\ fst (get_random_device fs u1 name u dir p1)
       = fst (get_random_device fs u2 name u dir p2)
    /\ fst (get_random_device fs u2 name u dir
              (snd (get_random_device fs u1 name u dir p1)))
       = fst (get_random_device fs u1 name u dir p1).
Proof.
  intros fs dir name u u1 u2 p1 p2 Hu H1 H2.
  split; [now apply hash_ignores_urandom|].
  split; apply call_deterministic; auto using serving_cache_ok.
  apply serving_cache_ok. now constructor.
Qed.

(** ** Field completeness *)

(** C1, as the code has it. When [get_random_device] succeeds, every
    field of the record is a string taken from the candidate list the
    class holds for it (device_model and system_version from one entry
    of the [DeviceList]), and lang_pack is never empty; the other
    fields are empty when the selected candidate is. *)
Theorem fields_come_from_candidates :
  forall fs urandom name u dir p out,
    reachable p ->
    fst (get_random_device fs urandom name u dir p) = Ok out ->
    exists cls info,
      platform_classes name = Some cls
      /\ record_of fs urandom name u dir p = Ok info
      /\ out = serialize info
      /\ (let a := snd (get_random_device fs urandom name u dir p) cls in
          (exists dev, In dev (device_list a)
                       /\ model_version info = model_version dev)
          /\ In (DeviceInfo.lang_code info) (lang_codes a)
          /\ In (DeviceInfo.system_lang_code info) (system_lang_codes a)
          /\ In (DeviceInfo.app_version info) (app_versions a)
          /\ In (DeviceInfo.lang_pack info) (lang_packs a)
          /\ In (DeviceInfo.api_id info) (api_id a)
          /\ In (DeviceInfo.api_hash info) (api_hash a))
      /\ DeviceInfo.lang_pack info <> [].
Proof.
  intros fs urandom name u dir p out Hr Hout.
  destruct (call_ok fs urandom name u dir p out Hout)
    as [cls [h [info [Hp [_ [Hrec [Hsel Ho]]]]]]].
  exists cls, info. repeat split; try assumption;
    try (apply select_ok in Hsel; cbv zeta; tauto).
  pose proof (reachable_packs_ok _
                (reach_call fs urandom name u dir p Hr) cls) as Hpk.
  apply select_ok in Hsel. destruct Hsel as [_ [_ [_ [_ [Hin _]]]]].
  rewrite Forall_forall in Hpk. now apply Hpk.
Qed.

(** ** The cache *)

Lemma select_needs_devices cls h s info :
  select cls h s = Ok info -> device_list s <> [].
Proof. unfold select. now destruct (device_list s). Qed.

Lemma cached_set_data_dir dir a : cached (set_data_dir dir a) = cached a.
Proof. reflexivity. Qed.

Lemma cached_device_list a b :
  cached a = cached b -> device_list a = device_list b.
Proof. intro H. now apply (f_equal device_list) in H. Qed.

(** With a populated [DeviceList] a call leaves the cached attributes
    of that class as they are. *)
Lemma call_keeps_cache fs urandom name u dir p cls :
  device_list (p cls) <> [] ->
  cached (snd (get_random_device fs urandom name u dir p) cls) = cached (p cls).
Proof.
  intro Hl. rewrite get_random_device_eq.
  destruct (platform_classes name) as [c|]; [|reflexivity]. cbv zeta.
  destruct (device_class_eq_dec cls c) as [<-|Hne].
  - destruct (_str_to_hash_id urandom u) as [h|e];
      [rewrite _generate_cached by exact Hl|]; cbn [snd];
      now rewrite update_same.
  - destruct (_str_to_hash_id urandom u) as [h|e];
      [destruct (_generate c fs (set_data_dir dir (p c))) as [[[]|e] a1]|];
      cbn [snd]; now rewrite update_other.
Qed.

(** With a populated [DeviceList] a call does not look at the data
    source. *)
Lemma call_ignores_files fs1 fs2 urandom name u dir p cls :
  platform_classes name = Some cls ->
  device_list (p cls) <> [] ->
  get_random_device fs1 urandom name u dir p
  = get_random_device fs2 urandom name u dir p.
Proof.
  intros Hp Hl. rewrite !get_random_device_eq, Hp. cbv zeta.
  destruct (_str_to_hash_id urandom u) as [h|e]; [|reflexivity].
  now rewrite !_generate_cached by exact Hl.
Qed.

(** C8, as the code has it. After a call for a platform has returned a
    record, no later call for that platform reads the data source: its
    outcome is the same over any directory tree, and the cached catalog
    and [DeviceList] of the class stay as that call left them. *)
Theorem cache_is_reused_after_success :
  forall fs urandom name u dir p out cls p2,
    platform_classes name = Some cls ->
    fst (get_random_device fs urandom name u dir p) = Ok out ->
    after (snd (get_random_device fs urandom name u dir p)) p2 ->
    cached (p2 cls)
    = cached (snd (get_random_device fs urandom name u dir p) cls)
    /\ device_list (p2 cls) <> []
    /\ (forall fs1 fs2 urandom' u' dir',
          get_random_device fs1 urandom' name u' dir' p2
          = get_random_device fs2 urandom' name u' dir' p2).
Proof.
  intros fs urandom name u dir p out cls p2 Hp Hout Hafter.
  destruct (call_ok fs urandom name u dir p out Hout)
    as [cls' [h [info [Hp' [_ [_ [Hsel _]]]]]]].
  rewrite Hp in Hp'. injection Hp' as <-.
  apply select_needs_devices in Hsel.
  set (p1 := snd (get_random_device fs urandom name u dir p)) in *.
  assert (H : cached (p2 cls) = cached (p1 cls) /\ device_list (p2 cls) <> []).
  { induction Hafter as [|fs' urandom' name' u' dir' p' _ [IH1 IH2]].
    - now split.
    - pose proof (call_keeps_cache fs' urandom' name' u' dir' p' cls IH2) as E.
      split; [congruence|]. now rewrite (cached_device_list _ _ E). }
  destruct H as [H1 H2]. repeat split; try assumption.
  intros fs1 fs2 urandom' u' dir'. now apply (call_ignores_files _ _ _ _ _ _ _ cls).
Qed.

(** ** The theorems at the fixtures *)

Lemma selection_by_offset_witness :
  _hash_to_value WindowsDevice (198834220397 + 1) [py "en"; py "fr"]
  = Ok (py "en")
  /\ _random_device WindowsDevice (Fixture.tree Fixture.flat) 198834220397
       initial
     = (Ok Fixture.flat_record,
        snd (_generate WindowsDevice (Fixture.tree Fixture.flat) initial)).
Proof.
  pose proof (selection_by_offset str [py "en"; py "fr"] 1 [] WindowsDevice
                (Fixture.tree Fixture.flat) 198834220397 initial
                (snd (_generate WindowsDevice (Fixture.tree Fixture.flat) initial))
                Fixture.flat_record []
                ltac:(discriminate) ltac:(vm_compute; reflexivity)
                ltac:(vm_compute; discriminate) ltac:(vm_compute; discriminate)
                ltac:(vm_compute; discriminate) ltac:(vm_compute; discriminate)
                ltac:(vm_compute; discriminate) ltac:(vm_compute; discriminate)
                ltac:(vm_compute; discriminate)) as [H1 H2].
  split; [rewrite H1 | rewrite H2]; vm_compute; reflexivity.
Defined.

Lemma hash_is_sha1_mod_10_12_witness :
  _str_to_hash_id [] (IdObj 123456789) = Ok 813268251713
  /\ _str_to_hash_id [] (IdObj 123456789)
     = _str_to_hash_id [] (IdStr (py "123456789"))
  /\ _str_to_hash_id [] (IdStr [0x5A; 0x6F; 0xEB; 0x20; 0x1F600])
     = Ok 212218273550.
Proof.
  pose proof (hash_is_sha1_mod_10_12 [] (@IdObj Z PyObject_int 123456789)
                (py "123456789") ltac:(vm_compute; reflexivity))
    as [H1 [_ [_ [H2 _]]]].
  pose proof (hash_is_sha1_mod_10_12 []
                (IdStr [0x5A; 0x6F; 0xEB; 0x20; 0x1F600])
                [0x5A; 0x6F; 0xEB; 0x20; 0x1F600] eq_refl)
    as [H3 _].
  split; [rewrite H1; vm_compute; reflexivity|].
  split; [exact H2 | rewrite H3; vm_compute; reflexivity].
Defined.

Lemma flat_expansion_is_cross_product_witness :
  (exists s1,
      _generate AndroidDevice (Fixture.tree Fixture.flat) initial = (Ok tt, s1)
      /\ map model_version (device_list s1)
         = list_prod [py "ModelA"; py "ModelB"] [py "1.0"; py "2.0"])
  /\ fst (get_random_device (Fixture.tree Fixture.flat) [] (platform AndroidDevice)
            (IdStr (py "fixed")) (py "data") fresh)
     = Ok (serialize Fixture.flat_record).
Proof.
  destruct (flat_expansion_is_cross_product AndroidDevice
              (Fixture.tree Fixture.flat) (py "data"))
    as [HA HB]; [discriminate|].
  split.
  - apply (HA initial Fixture.flat); reflexivity.
  - apply (HB eq_refl fresh [] (serving_fresh _ _)).
Defined.

Lemma ios_expansion_is_cross_product_witness :
  exists s1,
    _generate iOSDevice (Fixture.tree Fixture.ios_spaced) initial = (Ok tt, s1)
    /\ map model_version (device_list s1)
       = [(py "iPhone SE", py "16.1.2"); (py "iPhone SE", py "16.1.2");
          (py "iPhone 12   Pro Max", py "16.1.2")].
Proof.
  destruct (ios_expansion_is_cross_product (Fixture.tree Fixture.ios_spaced)
              initial Fixture.ios_spaced
              [(py "SE ", [py ""; py " "]);
               (py "12", [py "   Pro Max " ++ [9]])]
              [(py "16", [(py "1", [py "2"; py "3"])])]
              eq_refl eq_refl eq_refl eq_refl)
    as [s1 [H1 [_ [_ [_ [_ [_ [_ H2]]]]]]]].
  exists s1. split; [exact H1 | exact (H2 eq_refl)].
Defined.


Lemma lang_packs_fallback_is_en_US_witness :
  exists info,
    record_of (Fixture.tree Fixture.bare) [] (platform WindowsDevice)
      (IdStr (py "fixed")) (py "data") fresh = Ok info
    /\ DeviceInfo.lang_pack info = py "en-US".
Proof.
  destruct (lang_packs_fallback_is_en_US WindowsDevice
              (Fixture.tree Fixture.bare) (py "data") Fixture.bare
              [JStr (py ""); JNum 7; JNull])
    as [_ [_ H]].
  - reflexivity.
  - reflexivity.
  - repeat constructor.
  - destruct (H fresh [] (IdStr (py "fixed")) (serialize Fixture.bare_record)
                (serving_fresh _ _))
      as [info [H1 [_ H2]]]; [vm_compute; reflexivity|].
    exists info. split; assumption.
Defined.

Lemma omitted_credentials_default_to_empty_witness :
  exists info,
    record_of (Fixture.tree Fixture.bare) [] (platform WindowsDevice)
      (IdStr (py "fixed")) (py "data") fresh = Ok info
    /\ DeviceInfo.api_id info = py "".
Proof.
  destruct (omitted_credentials_default_to_empty WindowsDevice
              (Fixture.tree Fixture.bare) (py "data") Fixture.bare eq_refl)
    as [H _].
  destruct (H eq_refl) as [_ [_ H']].
  destruct (H' fresh [] (IdStr (py "fixed")) (serialize Fixture.bare_record)
              (serving_fresh _ _))
    as [info [H1 [_ H2]]]; [vm_compute; reflexivity|].
  exists info. split; assumption.
Defined.

Lemma same_identifier_same_output_witness :
  let fs := Fixture.tree Fixture.flat in
  let p2 := snd (get_random_device fs [] (py "Windows") (IdStr (py "user123"))
                   (py "data") fresh) in
  fst (get_random_device fs [] (py "Windows") (IdStr (py "fixed")) (py "data")
         fresh)
  = fst (get_random_device fs [1; 2; 3] (py "Windows") (IdStr (py "fixed"))
           (py "data") p2).
Proof.
  intros fs p2.
  destruct (same_identifier_same_output fs (py "data") (py "Windows")
              (IdStr (py "fixed")) [] [1; 2; 3] fresh p2)
    as [_ [H _]].
  - discriminate.
  - apply serving_fresh.
  - apply serving_call, serving_fresh.
  - exact H.
Defined.

Lemma fields_come_from_candidates_witness :
  exists cls info,
    platform_classes (py "Windows") = Some cls
    /\ record_of (Fixture.tree Fixture.flat) [] (py "Windows")
         (IdStr (py "fixed")) (py "data") fresh = Ok info
    /\ DeviceInfo.lang_pack info <> [].
Proof.
  destruct (fields_come_from_candidates (Fixture.tree Fixture.flat) []
              (py "Windows") (IdStr (py "fixed")) (py "data") fresh
              (serialize Fixture.flat_record) reach_fresh)
    as [cls [info [H1 [H2 [_ [_ H3]]]]]]; [vm_compute; reflexivity|].
  exists cls, info. split; [exact H1|]. split; [exact H2 | exact H3].
Defined.

Lemma cache_is_reused_after_success_witness :
  let p1 := snd (get_random_device (Fixture.tree Fixture.flat) []
                   (py "Windows") (IdStr (py "fixed")) (py "data") fresh) in
  let p2 := snd (get_random_device (Fixture.tree Fixture.no_models) []
                   (py "Windows") (IdStr (py "other")) (py "elsewhere") p1) in
  cached (p2 WindowsDevice) = cached (p1 WindowsDevice)
  /\ get_random_device (Fixture.tree Fixture.no_models) [] (py "Windows")
       (IdStr (py "fixed")) (py "data") p2
     = get_random_device (Fixture.tree Fixture.flat) [] (py "Windows")
         (IdStr (py "fixed")) (py "data") p2.
Proof.
  intros p1 p2.
  destruct (cache_is_reused_after_success (Fixture.tree Fixture.flat) []
              (py "Windows") (IdStr (py "fixed")) (py "data") fresh
              (serialize Fixture.flat_record) WindowsDevice p2)
    as [H1 [_ H2]].
  - reflexivity.
  - vm_compute. reflexivity.
  - apply after_call, after_now.
  - split; [exact H1 | apply H2].
Defined.

(** An iOS data file without [system_versions]: the default of the
    absent key is a list, and [.items()] raises during the expansion. *)
Example ios_without_versions_raises :
  let d := mk_data (Some (ModelDict [(py "12", [py ""])])) None
             (Some [py "en"]) None (Some [py "1.0.0"]) None None None in
  fst (get_random_device (Fixture.tree d) [] (py "iOS") (IdStr (py "fixed"))
         (py "data") fresh)
  = Raise AttributeError.
Proof. vm_compute. reflexivity. Qed.

(** ** Where the specification and the code part *)

(** C1 as stated fails: the fixture catalog lists [""] for api_id and
    api_hash, and the record carries both as empty strings. *)
Lemma record_with_empty_fields :
  record_of (Fixture.tree Fixture.flat) [] (py "Windows")
    (IdStr (py "fixed")) (py "data") fresh = Ok Fixture.flat_record
  /\ fst (get_random_device (Fixture.tree Fixture.flat) [] (py "Windows")
            (IdStr (py "fixed")) (py "data") fresh)
     = Ok (serialize Fixture.flat_record)
  /\ DeviceInfo.api_id Fixture.flat_record = []
  /\ DeviceInfo.api_hash Fixture.flat_record = []
  /\ ~ all_fields_nonempty Fixture.flat_record.
Proof.
  split; [vm_compute; reflexivity|].
  split; [vm_compute; reflexivity|].
  split; [reflexivity|]. split; [reflexivity|].
  intros [_ [_ [_ [_ [_ [_ [H _]]]]]]]. now apply H.
Qed.


(** C7 as stated fails: with only empty or non-string entries under
    [lang_packs] the selected lang_pack is "en-US", not "default". *)
Lemma filtered_lang_packs_give_en_US :
  key_lang_packs Fixture.bare = Some [JStr (py ""); JNum 7; JNull]
  /\ Forall dropped [JStr (py ""); JNum 7; JNull]
  /\ record_of (Fixture.tree Fixture.bare) [] (py "Windows")
       (IdStr (py "fixed")) (py "data") fresh = Ok Fixture.bare_record
  /\ fst (get_random_device (Fixture.tree Fixture.bare) [] (py "Windows")
            (IdStr (py "fixed")) (py "data") fresh)
     = Ok (serialize Fixture.bare_record)
  /\ DeviceInfo.lang_pack Fixture.bare_record = py "en-US"
  /\ DeviceInfo.lang_pack Fixture.bare_record <> py "default".
Proof.
  split; [reflexivity|].
  split; [repeat constructor|].
  split; [vm_compute; reflexivity|].
  split; [vm_compute; reflexivity|].
  split; [reflexivity | vm_compute; discriminate].
Qed.

(** C8 as stated fails: a call that ended at the device selection left
    the [DeviceList] empty, and the next call for the same platform reads
    the data source again: its outcome follows the directory tree it
    runs over, and it replaces the catalog attributes. *)
Lemma failed_call_is_followed_by_a_reload :
  let call fs := get_random_device fs [] (py "Windows") (IdStr (py "fixed"))
                   (py "data") in
  let p1 := snd (call (Fixture.tree Fixture.no_models) fresh) in
  fst (call (Fixture.tree Fixture.no_models) fresh)
  = Raise (ValueError (py "No values available for Windows"))
  /\ fst (call (Fixture.tree Fixture.no_models) p1)
     = Raise (ValueError (py "No values available for Windows"))
  /\ fst (call (Fixture.tree Fixture.flat) p1)
     = Ok (serialize Fixture.flat_record)
  /\ device_models (p1 WindowsDevice) = ModelList []
  /\ device_models (snd (call (Fixture.tree Fixture.flat) p1) WindowsDevice)
     = ModelList [py "ModelA"; py "ModelB"].
Proof.
  intros call p1.
  split; [|split; [|split; [|split]]]; vm_compute; reflexivity.
Qed.

(** * Further properties of the module *)

(** ** The serialized text *)

Lemma hex4_value c :
  0 <= c < 65536 ->
  exists a b x y,
    JSON.hex4 c = [a; b; x; y]
    /\ hex_value a = Some (c / 4096 mod 16)
    /\ hex_value b = Some (c / 256 mod 16)
    /\ hex_value x = Some (c / 16 mod 16)
    /\ hex_value y = Some (c mod 16)
    /\ ((c / 4096 mod 16 * 16 + c / 256 mod 16) * 16 + c / 16 mod 16) * 16
       + c mod 16 = c.
Proof.
  intro H. unfold JSON.hex4. do 4 eexists. split; [reflexivity|].
  repeat split; try (apply hex_value_digit, Z.mod_pos_bound; lia).
  Z.div_mod_to_equations. lia.
Qed.

(** Reading back an escaped body gives the text and what follows the
    closing quote. *)
Lemma scan_escape v : forall rest,
  scan (flat_map JSON.escape_char v ++ 34 :: rest) = Some (v, rest).
Proof.
  induction v as [|c v IH]; intro rest; [reflexivity|].
  cbn [flat_map]. rewrite <- app_assoc. unfold JSON.escape_char.
  destruct (Z.eqb_spec c 34) as [->|H34]; [cbn; now rewrite IH|].
  destruct (Z.eqb_spec c 92) as [->|H92]; [cbn; now rewrite IH|].
  destruct (Z.eqb_spec c 8) as [->|H8]; [cbn; now rewrite IH|].
  destruct (Z.eqb_spec c 12) as [->|H12]; [cbn; now rewrite IH|].
  destruct (Z.eqb_spec c 10) as [->|H10]; [cbn; now rewrite IH|].
  destruct (Z.eqb_spec c 13) as [->|H13]; [cbn; now rewrite IH|].
  destruct (Z.eqb_spec c 9) as [->|H9]; [cbn; now rewrite IH|].
  destruct ((0 <=? c) && (c <? 32)) eqn:Hc.
  - apply andb_true_iff in Hc. destruct Hc as [Hc1 Hc2].
    apply Z.leb_le in Hc1. apply Z.ltb_lt in Hc2.
    destruct (hex4_value c ltac:(lia)) as [a [b [x [y [E [Ha [Hb [Hx [Hy Hv]]]]]]]]].
    rewrite E. cbn [app scan]. cbn [Z.eqb Pos.eqb].
    rewrite Ha, Hb, Hx, Hy, IH, Hv. reflexivity.
  - cbn [app scan].
    rewrite (proj2 (Z.eqb_neq c 34) H34), (proj2 (Z.eqb_neq c 92) H92), IH.
    reflexivity.
Qed.

Lemma dumps_str_inj v v' r r' :
  JSON.dumps_str v ++ r = JSON.dumps_str v' ++ r' -> v = v' /\ r = r'.
Proof.
  unfold JSON.dumps_str. cbn [app]. rewrite <- !app_assoc. cbn [app].
  intro H. injection H as H. apply (f_equal scan) in H.
  rewrite !scan_escape in H. now injection H.
Qed.

Lemma dumps_items_cons k v i items :
  JSON.dumps_items ((k, v) :: i :: items)
  = JSON.dumps_str k ++ py ": " ++ JSON.dumps_str v ++ py ", "
    ++ JSON.dumps_items (i :: items).
Proof. reflexivity. Qed.

(** Dicts with the same keys and the same text have the same values. *)
Lemma dumps_items_inj items : forall items' t t',
  map fst items = map fst items' ->
  JSON.dumps_items items ++ t = JSON.dumps_items items' ++ t' ->
  items = items' /\ t = t'.
Proof.
  induction items as [|[k v] items IH]; intros [|[k' v'] items'] t t' Hk H;
    try discriminate Hk.
  - now split.
  - cbn [map fst] in Hk. injection Hk as <- Hk.
    destruct items as [|i items], items' as [|i' items']; try discriminate Hk.
    + cbn [JSON.dumps_items] in H. rewrite <- !app_assoc in H.
      apply dumps_str_inj in H. destruct H as [_ H].
      apply app_inv_head, dumps_str_inj in H. destruct H as [-> ->].
      now split.
    + rewrite !dumps_items_cons in H. rewrite <- !app_assoc in H.
      apply dumps_str_inj in H. destruct H as [_ H].
      apply app_inv_head, dumps_str_inj in H. destruct H as [-> H].
      apply app_inv_head in H.
      destruct (IH (i' :: items') t t' Hk H) as [E ->].
      rewrite E. now split.
Qed.

(** X1. Serialization loses nothing: two records with the same JSON
    text are the same record, and more generally [json.dumps] tells
    apart any two dicts of strings with the same keys. *)
Theorem serialize_injective :
  forall a b : DeviceInfo.t,
    serialize a = serialize b -> a = b.
Proof.
  intros a b H. unfold serialize, JSON.dumps in H.
  apply app_inv_head, dumps_items_inj in H; [|reflexivity].
  destruct H as [H _]. destruct a, b. cbn in H. now inversion H.
Qed.

Lemma serialize_injective_witness :
  DeviceInfo.mk (py "Model" ++ py "A") (py "2.0") (py "en") (py "en")
    (py "1.0.0") (py "default") [] []
  = Fixture.flat_record.
Proof. apply serialize_injective. vm_compute. reflexivity. Defined.

Lemma hex_digit_printable d : 0 <= d -> ~ (0 <= SHA1.hex_digit d < 32).
Proof. unfold SHA1.hex_digit. destruct (d <? 10); lia. Qed.

Lemma escape_char_printable c :
  Forall (fun x => ~ (0 <= x < 32)) (JSON.escape_char c).
Proof.
  unfold JSON.escape_char.
  repeat match goal with
         | |- context [if ?a =? ?b then _ else _] => destruct (Z.eqb_spec a b)
         end; try (repeat constructor; lia).
  destruct ((0 <=? c) && (c <? 32)) eqn:Hc.
  - unfold JSON.hex4. cbn [app].
    repeat (constructor; [try lia; apply hex_digit_printable;
                          apply Z.mod_pos_bound; lia|]).
    constructor.
  - constructor; [|constructor]. intro H.
    assert ((0 <=? c) && (c <? 32) = true); [|congruence].
    apply andb_true_iff. split; [apply Z.leb_le | apply Z.ltb_lt]; lia.
Qed.

Lemma dumps_str_printable s :
  Forall (fun x => ~ (0 <= x < 32)) (JSON.dumps_str s).
Proof.
  unfold JSON.dumps_str. apply Forall_app. split; [literal_printable|].
  apply Forall_app. split; [|literal_printable].
  induction s as [|c s IH]; [constructor|]. cbn [flat_map].
  apply Forall_app. split; [apply escape_char_printable | exact IH].
Qed.

Lemma dumps_items_printable items :
  Forall (fun x => ~ (0 <= x < 32)) (JSON.dumps_items items).
Proof.
  induction items as [|[k v] items IH]; [constructor|].
  destruct items as [|i items].
  - cbn [JSON.dumps_items].
    apply Forall_app; split; [apply dumps_str_printable|].
    apply Forall_app; split; [literal_printable | apply dumps_str_printable].
  - rewrite dumps_items_cons.
    apply Forall_app; split; [apply dumps_str_printable|].
    apply Forall_app; split; [literal_printable|].
    apply Forall_app; split; [apply dumps_str_printable|].
    apply Forall_app; split; [literal_printable | exact IH].
Qed.

Lemma escape_char_plain c : plain c -> JSON.escape_char c = [c].
Proof.
  intros [H34 [H92 Hc]]. unfold JSON.escape_char.
  repeat match goal with
         | |- context [if ?a =? ?b then _ else _] =>
             destruct (Z.eqb_spec a b); [lia|]
         end.
  destruct (Z.leb_spec 0 c), (Z.ltb_spec c 32); cbn [andb]; (reflexivity || lia).
Qed.

(** X2. The serialized text has no control character, so it is one
    line; a field made of code points other than the quote, the
    backslash and the control characters is written as it is between
    two quotes, non-ASCII code points included. *)
Theorem serialized_text_is_printable :
  forall (info : DeviceInfo.t) (s : str),
    Forall (fun c => ~ (0 <= c < 32)) (serialize info)
    /\ (Forall plain s -> JSON.dumps_str s = [34] ++ s ++ [34]).
Proof.
  intros info s. split.
  - unfold serialize, JSON.dumps.
    apply Forall_app; split; [literal_printable|].
    apply Forall_app; split; [apply dumps_items_printable | literal_printable].
  - intro H. unfold JSON.dumps_str. do 2 f_equal.
    induction H as [|c s Hc _ IH]; [reflexivity|]. cbn [flat_map].
    now rewrite (escape_char_plain c Hc), IH.
Qed.

Lemma serialized_text_is_printable_witness :
  JSON.dumps_str [0x4D; 0xE9; 0x4E2D] = [34; 0x4D; 0xE9; 0x4E2D; 34].
Proof.
  apply (serialized_text_is_printable Fixture.flat_record [0x4D; 0xE9; 0x4E2D]).
  repeat constructor; try lia; vm_compute; discriminate.
Defined.

(** ** [_clean_and_simplify] *)

Lemma split_run_word u : forall w s,
  Forall (fun c => is_space c = false) u ->
  split_run w (u ++ s) = split_run (w ++ u) s.
Proof.
  induction u as [|c u IH]; intros w s Hu.
  - now rewrite app_nil_r.
  - inversion Hu as [|? ? Hc Hu']; subst. cbn [app split_run]. rewrite Hc.
    rewrite IH by exact Hu'. now rewrite <- app_assoc.
Qed.

Lemma split_run_words s : forall w,
  Forall (fun c => is_space c = false) w ->
  Forall is_word (split_run w s).
Proof.
  induction s as [|c s IH]; intros w Hw; cbn [split_run].
  - destruct w; [constructor|].
    constructor; [split; [discriminate | exact Hw] | constructor].
  - destruct (is_space c) eqn:Hc.
    + destruct w as [|x w]; [apply IH; constructor|].
      constructor; [split; [discriminate | exact Hw] | apply IH; constructor].
    + apply IH, Forall_app. split; [exact Hw | repeat constructor; exact Hc].
Qed.

Lemma filter_words ws :
  Forall is_word ws ->
  filter (fun word : str => match word with [] => false | _ :: _ => true end) ws
  = ws.
Proof.
  induction 1 as [|w ws [Hw _] _ IH]; [reflexivity|]. cbn [filter].
  destruct w; [congruence | now rewrite IH].
Qed.

Lemma _clean_and_simplify_words text :
  _clean_and_simplify text = join (py " ") (split text).
Proof.
  unfold _clean_and_simplify. rewrite filter_words; [reflexivity|].
  apply split_run_words. constructor.
Qed.

Lemma split_join ws :
  Forall is_word ws -> split (join (py " ") ws) = ws.
Proof.
  unfold split. induction 1 as [|w ws [Hne Hw] Hws IH]; [reflexivity|].
  destruct ws as [|w2 ws].
  - cbn [join]. rewrite <- (app_nil_r w) at 1.
    rewrite (split_run_word w [] [] Hw).
    cbn [app split_run]. destruct w; [congruence | reflexivity].
  - change (join (py " ") (w :: w2 :: ws))
      with (w ++ 32 :: join (py " ") (w2 :: ws)).
    rewrite (split_run_word w [] _ Hw). cbn [app split_run].
    change (is_space 32) with true. cbv iota. rewrite IH.
    destruct w; [congruence | reflexivity].
Qed.

Lemma concat_split_run s : forall w,
  concat (split_run w s) = w ++ without_space s.
Proof.
  unfold without_space.
  induction s as [|c s IH]; intro w; cbn [split_run filter].
  - destruct w; cbn; now rewrite ?app_nil_r.
  - destruct (is_space c); cbn [negb].
    + destruct w; cbn [concat]; now rewrite IH.
    + now rewrite IH, <- app_assoc.
Qed.

Lemma without_space_word w :
  Forall (fun c => is_space c = false) w -> without_space w = w.
Proof.
  unfold without_space. induction 1 as [|c w Hc _ IH]; [reflexivity|].
  cbn [filter]. now rewrite Hc, IH.
Qed.

Lemma without_space_app a b :
  without_space (a ++ b) = without_space a ++ without_space b.
Proof. apply filter_app. Qed.

Lemma without_space_join ws :
  Forall is_word ws -> without_space (join (py " ") ws) = concat ws.
Proof.
  induction 1 as [|w ws [_ Hw] Hws IH]; [reflexivity|].
  destruct ws as [|w2 ws].
  - cbn [join concat]. now rewrite app_nil_r, without_space_word.
  - change (join (py " ") (w :: w2 :: ws))
      with (w ++ 32 :: join (py " ") (w2 :: ws)).
    rewrite without_space_app, without_space_word by exact Hw.
    cbn [concat]. f_equal. exact IH.
Qed.

Lemma join_spaces ws :
  Forall is_word ws ->
  Forall (fun c => is_space c = true -> c = 32) (join (py " ") ws).
Proof.
  induction 1 as [|w ws [_ Hw] Hws IH]; [constructor|].
  assert (Hw' : Forall (fun c => is_space c = true -> c = 32) w).
  { eapply Forall_impl; [|exact Hw]. cbn. intros c H1 H2. congruence. }
  destruct ws as [|w2 ws]; [exact Hw'|].
  change (join (py " ") (w :: w2 :: ws))
    with (w ++ 32 :: join (py " ") (w2 :: ws)).
  apply Forall_app. split; [exact Hw'|]. constructor; [reflexivity | exact IH].
Qed.

Lemma join_ends ws :
  Forall is_word ws ->
  let x := join (py " ") ws in
  x = [] \/ exists c y d z, x = c :: y /\ x = z ++ [d]
                            /\ is_space c = false /\ is_space d = false.
Proof.
  induction 1 as [|w ws [Hne Hw] Hws IH]; [now left|]. right.
  assert (Hfirst : exists c y, w = c :: y /\ is_space c = false).
  { destruct w as [|c y]; [congruence|]. inversion Hw; subst. eauto. }
  assert (Hlast : exists d z, w = z ++ [d] /\ is_space d = false).
  { destruct (exists_last Hne) as [z [d E]]. exists d, z. split; [exact E|].
    rewrite E in Hw. apply Forall_app in Hw. destruct Hw as [_ Hd].
    now inversion Hd. }
  destruct Hfirst as [c [y [Ec Hc]]]. destruct ws as [|w2 ws].
  - destruct Hlast as [d [z [Ed Hd]]]. cbn [join]. exists c, y, d, z.
    repeat split; assumption.
  - cbv zeta in IH. destruct IH as [E|[c2 [y2 [d2 [z2 [_ [E2 [_ Hd2]]]]]]]].
    { exfalso. inversion Hws as [|? ? [Hne2 _] _]; subst.
      destruct ws; cbn [join] in E; [congruence|].
      destruct w2; [congruence | discriminate]. }
    change (join (py " ") (w :: w2 :: ws))
      with (w ++ 32 :: join (py " ") (w2 :: ws)).
    exists c, (y ++ 32 :: join (py " ") (w2 :: ws)), d2, (w ++ 32 :: z2).
    repeat split; try assumption.
    + now rewrite Ec.
    + rewrite E2. now rewrite <- app_assoc.
Qed.

(** X3. [_clean_and_simplify] returns the words of the text, its
    maximal runs without white space, joined by single spaces: the
    result has no leading or trailing white space, every white-space
    code point in it is U+0020, and cleaning it again changes nothing. *)
Theorem clean_and_simplify_normal_form :
  forall text : str,
    let r := _clean_and_simplify text in
    r = join (py " ") (split text)
    /\ Forall is_word (split text)
    /\ split r = split text
    /\ _clean_and_simplify r = r
    /\ strip r = r
    /\ Forall (fun c => is_space c = true -> c = 32) r.
Proof.
  intros text r. subst r.
  assert (Hw : Forall is_word (split text))
    by (apply split_run_words; constructor).
  rewrite !_clean_and_simplify_words, (split_join _ Hw).
  repeat split; try assumption; try reflexivity.
  - apply strip_ends, join_ends, Hw.
  - apply join_spaces, Hw.
Qed.

(** X4. [_clean_and_simplify] touches white space only: it keeps every
    other code point, in order; a text of white space alone becomes the
    empty string, and a text without white space is returned as it is. *)
Theorem clean_and_simplify_keeps_text :
  forall text : str,
    without_space (_clean_and_simplify text) = without_space text
    /\ (Forall (fun c => is_space c = true) text ->
        _clean_and_simplify text = [])
    /\ (Forall (fun c => is_space c = false) text ->
        _clean_and_simplify text = text).
Proof.
  intro text. rewrite _clean_and_simplify_words.
  assert (Hw : Forall is_word (split text))
    by (apply split_run_words; constructor).
  split; [|split].
  - rewrite (without_space_join _ Hw). unfold split.
    now rewrite concat_split_run.
  - intro H. replace (split text) with (@nil str); [reflexivity|].
    clear Hw. unfold split. induction H as [|c s Hc _ IH]; [reflexivity|].
    cbn [split_run]. now rewrite Hc.
  - intro H. unfold split.
    rewrite <- (app_nil_r text) at 1. rewrite (split_run_word text [] [] H).
    cbn [app split_run]. now destruct text.
Qed.

Lemma clean_and_simplify_keeps_text_witness :
  _clean_and_simplify [9; 32] = []
  /\ _clean_and_simplify (py "iPhone") = py "iPhone".
Proof.
  destruct (clean_and_simplify_keeps_text [9; 32]) as [_ [H1 _]].
  destruct (clean_and_simplify_keeps_text (py "iPhone")) as [_ [_ H2]].
  split; [apply H1 | apply H2]; repeat constructor.
Defined.

(** ** Platforms and data files *)

(** X5. A platform name that is not exactly one of the five class
    constants (the comparison is case-sensitive) raises the ValueError
    "Unsupported platform: {name}" before anything else happens: no
    class attribute changes and no file is looked at. *)
Theorem unsupported_platform_changes_nothing :
  forall fs urandom name u dir p,
    (forall cls, name <> platform cls) ->
    get_random_device fs urandom name u dir p
    = (Raise (ValueError (py "Unsupported platform: " ++ name)), p).
Proof.
  intros fs urandom name u dir p H. rewrite get_random_device_eq.
  destruct (platform_classes name) as [cls|] eqn:E; [|reflexivity].
  now apply platform_classes_some, H in E.
Qed.

Lemma unsupported_platform_changes_nothing_witness :
  get_random_device (Fixture.tree Fixture.flat) [] (py "windows")
    (IdStr (py "fixed")) (py "data") fresh
  = (Raise (ValueError (py "Unsupported platform: windows")), fresh).
Proof.
  apply (unsupported_platform_changes_nothing (Fixture.tree Fixture.flat) []
           (py "windows")).
  intros cls; destruct cls; vm_compute; discriminate.
Defined.

(** With an empty [DeviceList] a call reads the data file afresh,
    whatever the other attributes of the class are. *)
Lemma call_answer_empty fs dir p urandom u cls :
  device_list (p cls) = [] ->
  fst (get_random_device fs urandom (platform cls) u dir p)
  = do h <- _str_to_hash_id urandom u; answer fs dir cls h.
Proof.
  intro Hl. rewrite get_random_device_eq, platform_classes_platform. cbv zeta.
  destruct (_str_to_hash_id urandom u) as [h|e]; [|reflexivity].
  cbn [bind]. unfold answer, answer_record. rewrite _generate_eq.
  cbn [device_list set_data_dir data_dir]. rewrite Hl.
  destruct (fs dir (file_name cls)) as [| |d]; try reflexivity.
  rewrite (generated_depends_on_dir cls d (set_data_dir dir (p cls))).
  cbn [data_dir set_data_dir].
  now destruct (generated cls d (set_data_dir dir initial)) as [[[]|e] a1].
Qed.

(** X6. When the data file of the platform is missing the call raises
    FileNotFoundError, and when it does not parse, the parser's error;
    in both cases only [data_dir] is written, the [DeviceList] stays
    empty, and the next call opens the file again: once the file is
    there it answers as a fresh process would. *)
Theorem missing_file_is_looked_for_again :
  forall cls fs urandom u dir p h,
    device_list (p cls) = [] ->
    _str_to_hash_id urandom u = Ok h ->
    fs dir (file_name cls) = Absent \/ fs dir (file_name cls) = Malformed ->
    let r := get_random_device fs urandom (platform cls) u dir p in
    fst r = (match fs dir (file_name cls) with
             | Malformed => Raise JSONDecodeError
             | _ => Raise FileNotFoundError
             end)
    /\ snd r = update p cls (set_data_dir dir (p cls))
    /\ (forall fs' urandom' u',
          fst (get_random_device fs' urandom' (platform cls) u' dir (snd r))
          = fst (get_random_device fs' urandom' (platform cls) u' dir fresh)).
Proof.
  intros cls fs urandom u dir p h Hl Hh Hf r.
  assert (Hr : r = (match fs dir (file_name cls) with
                    | Malformed => Raise JSONDecodeError
                    | _ => Raise FileNotFoundError
                    end, update p cls (set_data_dir dir (p cls)))).
  { subst r. rewrite get_random_device_eq, platform_classes_platform.
    cbv zeta. rewrite Hh, _generate_eq.
    cbn [device_list set_data_dir data_dir]. rewrite Hl.
    destruct Hf as [-> | ->]; reflexivity. }
  rewrite Hr. cbn [fst snd]. repeat split.
  intros fs' urandom' u'. rewrite !call_answer_empty; try reflexivity.
  now rewrite update_same.
Qed.

Lemma missing_file_is_looked_for_again_witness :
  let r := get_random_device Fixture.empty_tree [] (py "Linux")
             (IdStr (py "fixed")) (py "data") fresh in
  fst r = Raise FileNotFoundError
  /\ fst (get_random_device (Fixture.tree Fixture.flat) [] (py "Linux")
            (IdStr (py "fixed")) (py "data") (snd r))
     = Ok (serialize Fixture.flat_record).
Proof.
  intro r.
  destruct (missing_file_is_looked_for_again LinuxDevice Fixture.empty_tree []
              (IdStr (py "fixed")) (py "data") fresh 198834220397)
    as [H1 [_ H2]].
  - reflexivity.
  - vm_compute. reflexivity.
  - left. reflexivity.
  - split; [exact H1|].
    etransitivity; [exact (H2 (Fixture.tree Fixture.flat) [] (IdStr (py "fixed")))|].
    vm_compute. reflexivity.
Defined.

(** X7. A call for a platform looks at one file only, the one named
    after the platform in lower case under [data_dir]: over two
    directory trees that agree on it the call returns the same and
    leaves the same state. *)
Theorem only_the_platform_file_is_read :
  forall fs1 fs2 urandom name u dir p cls,
    platform_classes name = Some cls ->
    fs1 dir (lower (platform cls) ++ py ".json")
    = fs2 dir (lower (platform cls) ++ py ".json") ->
    get_random_device fs1 urandom name u dir p
    = get_random_device fs2 urandom name u dir p.
Proof.
  intros fs1 fs2 urandom name u dir p cls Hp Hf.
  rewrite !get_random_device_eq, Hp. cbv zeta.
  destruct (_str_to_hash_id urandom u) as [h|e]; [|reflexivity].
  rewrite !_generate_eq. cbn [data_dir set_data_dir]. unfold file_name.
  now rewrite Hf.
Qed.

Lemma only_the_platform_file_is_read_witness :
  let other : filesystem :=
    fun _ f => if str_eqb f (py "android.json") then Parsed Fixture.flat
               else Malformed in
  get_random_device other [] (py "Android") (IdStr (py "fixed")) (py "data")
    fresh
  = get_random_device (Fixture.tree Fixture.flat) [] (py "Android")
      (IdStr (py "fixed")) (py "data") fresh.
Proof.
  intro other.
  apply (only_the_platform_file_is_read other (Fixture.tree Fixture.flat) []
           (py "Android") (IdStr (py "fixed")) (py "data") fresh AndroidDevice);
    reflexivity.
Defined.

(** X8. Once the [DeviceList] of a class is not empty no later call for
    that platform reads the data source, also when the calls raise: a
    catalog loaded without language codes keeps failing at the
    lang_code selection after the file has been corrected. *)
Theorem populated_cache_is_never_refreshed :
  forall p cls name p2,
    platform_classes name = Some cls ->
    device_list (p cls) <> [] ->
    after p p2 ->
    cached (p2 cls) = cached (p cls)
    /\ (forall fs1 fs2 urandom u dir,
          get_random_device fs1 urandom name u dir p2
          = get_random_device fs2 urandom name u dir p2).
Proof.
  intros p cls name p2 Hp Hl Hafter.
  assert (H : cached (p2 cls) = cached (p cls) /\ device_list (p2 cls) <> []).
  { induction Hafter as [|fs' urandom' name' u' dir' p' _ [IH1 IH2]].
    - now split.
    - pose proof (call_keeps_cache fs' urandom' name' u' dir' p' cls IH2) as E.
      split; [congruence|]. now rewrite (cached_device_list _ _ E). }
  destruct H as [H1 H2]. split; [exact H1|].
  intros fs1 fs2 urandom u dir.
  now apply (call_ignores_files _ _ _ _ _ _ _ cls).
Qed.

Lemma populated_cache_is_never_refreshed_witness :
  let call fs := get_random_device fs [] (py "Windows") (IdStr (py "fixed"))
                   (py "data") in
  let p1 := snd (call (Fixture.tree Fixture.no_lang_codes) fresh) in
  fst (call (Fixture.tree Fixture.no_lang_codes) fresh)
  = Raise (ValueError (py "No values available for Windows"))
  /\ call (Fixture.tree Fixture.flat) p1
     = call (Fixture.tree Fixture.no_lang_codes) p1
  /\ fst (call (Fixture.tree Fixture.flat) p1)
     = Raise (ValueError (py "No values available for Windows")).
Proof.
  intros call p1.
  split; [vm_compute; reflexivity|].
  split; [|vm_compute; reflexivity].
  assert (H1 : platform_classes (py "Windows") = Some WindowsDevice)
    by reflexivity.
  assert (H2 : device_list (p1 WindowsDevice) <> [])
    by (vm_compute; discriminate).
  pose proof (populated_cache_is_never_refreshed p1 WindowsDevice
                (py "Windows") p1 H1 H2 (after_now p1)) as [_ H].
  exact (H (Fixture.tree Fixture.flat) (Fixture.tree Fixture.no_lang_codes)
           [] (IdStr (py "fixed")) (py "data")).
Defined.

(** ** The placeholders of the expansion *)

Lemma loaded_lang_packs_ne d s : lang_packs (loaded d s) <> [].
Proof.
  unfold loaded, load_data. cbn [snd lang_packs].
  destruct (flat_map _ _); discriminate.
Qed.

Lemma entry_pack_default s pd pd' mv :
  lang_packs s <> [] -> entry s pd mv = entry s pd' mv.
Proof. unfold entry. destruct (lang_packs s); [congruence | reflexivity]. Qed.

Lemma generated_flat cls d s :
  cls <> iOSDevice ->
  generated cls d s
  = (Ok tt,
     set_device_list
       (map (entry (set_device_list [] (loaded d s)) (py "default"))
            (list_prod
               (model_iter (get (key_device_models d) (ModelList [])))
               (version_iter (get (key_system_versions d) (VersionList [])))))
       (set_device_list [] (loaded d s))).
Proof.
  intro H. unfold generated.
  assert (E : pairs cls (set_device_list [] (loaded d s))
              = Ok (list_prod
                      (model_iter (get (key_device_models d) (ModelList [])))
                      (version_iter
                         (get (key_system_versions d) (VersionList [])))))
    by (destruct cls; try contradiction; reflexivity).
  rewrite E. do 2 f_equal. apply map_ext. intro mv.
  apply entry_pack_default, loaded_lang_packs_ne.
Qed.

(** X9. The macOS branch of [_generate] builds what the default branch
    builds: after [load_data] the [lang_packs] list is never empty, so
    the fallback "macos" (like "default" in the other branches) is
    never taken, and the lang_pack of every [DeviceList] entry is the
    first loaded entry. *)
Theorem macos_branch_is_the_default_branch :
  forall fs1 fs2 cls s d,
    cls <> iOSDevice ->
    device_list s = [] ->
    fs1 (data_dir s) (file_name macOSDevice) = Parsed d ->
    fs2 (data_dir s) (file_name cls) = Parsed d ->
    _generate macOSDevice fs1 s = _generate cls fs2 s
    /\ exists s1 first rest,
         _generate macOSDevice fs1 s = (Ok tt, s1)
         /\ lang_packs s1 = first :: rest
         /\ Forall (fun dev => DeviceInfo.lang_pack dev = first)
                   (device_list s1).
Proof.
  intros fs1 fs2 cls s d Hcls Hl H1 H2.
  rewrite (_generate_parsed macOSDevice fs1 s d Hl H1).
  rewrite (_generate_parsed cls fs2 s d Hl H2).
  rewrite (generated_flat macOSDevice d s) by discriminate.
  rewrite (generated_flat cls d s Hcls). split; [reflexivity|].
  pose proof (loaded_lang_packs_ne d s) as Hne.
  destruct (lang_packs (loaded d s)) as [|first rest] eqn:E; [congruence|].
  eexists. exists first, rest. split; [reflexivity|].
  split; [exact E|]. cbn [device_list set_device_list].
  apply Forall_forall. intros dev Hin. apply in_map_iff in Hin.
  destruct Hin as [mv [<- _]]. unfold entry. cbn [DeviceInfo.lang_pack].
  cbn [lang_packs set_device_list]. now rewrite E.
Qed.

Lemma macos_branch_is_the_default_branch_witness :
  _generate macOSDevice (Fixture.tree Fixture.bare) initial
  = _generate LinuxDevice (Fixture.tree Fixture.bare) initial.
Proof.
  assert (H : LinuxDevice <> iOSDevice) by discriminate.
  exact (proj1 (macos_branch_is_the_default_branch (Fixture.tree Fixture.bare)
                  (Fixture.tree Fixture.bare) LinuxDevice initial Fixture.bare
                  H eq_refl eq_refl eq_refl)).
Defined.



(** ** More on selection and hashing *)

(** X11. Selection depends on the hash only through its remainder
    modulo the number of candidates, it never leaves the list, also for
    a negative hash, and every candidate is the choice of some hash
    below the length of the list. *)
Theorem selection_is_periodic_and_onto :
  forall (T : Type) cls (vs : list T) (h k : Z) (v : T),
    In v vs ->
    _hash_to_value cls (h + k * Z.of_nat (length vs)) vs
    = _hash_to_value cls h vs
    /\ (exists x, In x vs /\ _hash_to_value cls h vs = Ok x)
    /\ (exists i, 0 <= i < Z.of_nat (length vs)
                  /\ _hash_to_value cls i vs = Ok v).
Proof.
  intros T cls vs h k v Hin.
  assert (Hne : vs <> []) by (intros ->; contradiction).
  assert (Hlen : 0 < Z.of_nat (length vs))
    by (destruct vs; [congruence | cbn; lia]).
  split; [|split].
  - unfold _hash_to_value. destruct vs as [|v0 vs']; [congruence|].
    now rewrite Z.mod_add by lia.
  - rewrite <- (Z.add_0_r h), (_hash_to_value_pick cls h 0 vs v Hne).
    eexists. split; [|reflexivity]. apply nth_In, pick_index, Hne.
  - destruct (In_nth vs v v Hin) as [n [Hn E]]. exists (Z.of_nat n).
    split; [lia|].
    rewrite <- (Z.add_0_r (Z.of_nat n)).
    rewrite (_hash_to_value_pick cls (Z.of_nat n) 0 vs v Hne). unfold pick.
    rewrite Z.add_0_r, Z.mod_small, Nat2Z.id by lia. now rewrite E.
Qed.

Lemma selection_is_periodic_and_onto_witness :
  _hash_to_value LinuxDevice (-1 + 5 * 3) [py "a"; py "b"; py "c"]
  = _hash_to_value LinuxDevice (-1) [py "a"; py "b"; py "c"]
  /\ _hash_to_value LinuxDevice (-1) [py "a"; py "b"; py "c"] = Ok (py "c").
Proof.
  destruct (selection_is_periodic_and_onto str LinuxDevice
              [py "a"; py "b"; py "c"] (-1) 5 (py "c"))
    as [H _]; [right; right; left; reflexivity|].
  split; [exact H | reflexivity].
Defined.

Lemma select_picks cls h s info :
  select cls h s = Ok info ->
  DeviceInfo.lang_code info = pick h 1 (lang_codes s) []
  /\ DeviceInfo.system_lang_code info = pick h 2 (system_lang_codes s) [].
Proof.
  unfold select.
  destruct (_hash_to_value cls h (device_list s)) as [dev|]; [|discriminate].
  cbn [bind].
  destruct (lang_codes s) as [|a l] eqn:E1; [discriminate|].
  rewrite (_hash_to_value_pick cls h 1 (a :: l) []) by discriminate.
  cbn [bind].
  destruct (system_lang_codes s) as [|b m] eqn:E2; [discriminate|].
  rewrite (_hash_to_value_pick cls h 2 (b :: m) []) by discriminate.
  cbn [bind].
  repeat match goal with
         | |- context [_hash_to_value ?c ?k ?v] =>
             destruct (_hash_to_value c k v); [|discriminate]
         end.
  cbn [bind]. intro H. injection H as <-. now split.
Qed.

Lemma generated_lang_codes cls d s :
  lang_codes (snd (generated cls d s)) = get (key_lang_codes d) []
  /\ system_lang_codes (snd (generated cls d s))
     = get (key_system_lang_codes d) (get (key_lang_codes d) []).
Proof. unfold generated. now destruct (pairs cls _). Qed.

Lemma adjacent_indices_differ h n :
  2 <= n -> (h + 1) mod n <> (h + 2) mod n.
Proof.
  intros Hn E.
  pose proof (Z.div_mod (h + 1) n ltac:(lia)) as H1.
  pose proof (Z.div_mod (h + 2) n ltac:(lia)) as H2.
  rewrite <- E in H2.
  assert (Hq : n * ((h + 2) / n - (h + 1) / n) = 1) by lia.
  destruct (Z.le_gt_cases ((h + 2) / n - (h + 1) / n) 0); nia.
Qed.

(** X12. When the data file has no [system_lang_codes] key the class
    takes the [lang_codes] list itself, and since the two selections
    use the offsets 1 and 2 the system_lang_code of a record is the
    entry after its lang_code, cyclically: with one language code the
    two fields are equal, and with two or more distinct codes they are
    never equal. *)
Theorem defaulted_system_lang_code_follows_lang_code :
  forall cls fs dir d l p urandom u out,
    fs dir (file_name cls) = Parsed d ->
    key_lang_codes d = Some l ->
    key_system_lang_codes d = None ->
    serving fs dir p ->
    fst (get_random_device fs urandom (platform cls) u dir p) = Ok out ->
    exists h info,
      _str_to_hash_id urandom u = Ok h
      /\ record_of fs urandom (platform cls) u dir p = Ok info
      /\ out = serialize info
      /\ DeviceInfo.lang_code info = pick h 1 l []
      /\ DeviceInfo.system_lang_code info = pick h 2 l []
      /\ (length l = 1%nat ->
          DeviceInfo.system_lang_code info = DeviceInfo.lang_code info)
      /\ ((2 <= length l)%nat -> NoDup l ->
          DeviceInfo.system_lang_code info <> DeviceInfo.lang_code info).
Proof.
  intros cls fs dir d l p urandom u out Hf Hk Hn Hs Hout.
  destruct (serving_call_ok fs dir cls d p urandom u out Hf Hs Hout)
    as [h [info [Hh [Hr [Ho [_ Hsel]]]]]].
  apply select_picks in Hsel. destruct Hsel as [E1 E2].
  destruct (generated_lang_codes cls d (set_data_dir dir initial)) as [G1 G2].
  rewrite G1, Hk in E1. rewrite G2, Hn, Hk in E2. cbn [get] in E1, E2.
  exists h, info. repeat split; try assumption.
  - intro H1. rewrite E1, E2. unfold pick. rewrite H1.
    now rewrite !Z.mod_1_r.
  - intros H2 Hd E. rewrite E1, E2 in E. unfold pick in E.
    assert (Hne : l <> []) by (destruct l; [cbn in H2; lia | discriminate]).
    apply (proj1 (NoDup_nth l []) Hd) in E; try (apply pick_index, Hne).
    apply Z2Nat.inj in E; try (apply Z.mod_pos_bound; lia).
    symmetry in E. revert E. apply adjacent_indices_differ. lia.
Qed.

Lemma defaulted_system_lang_code_follows_lang_code_witness :
  exists info,
    record_of (Fixture.tree Fixture.two_langs) [] (platform LinuxDevice)
      (IdStr (py "fixed")) (py "data") fresh = Ok info
    /\ DeviceInfo.system_lang_code info <> DeviceInfo.lang_code info.
Proof.
  destruct (defaulted_system_lang_code_follows_lang_code LinuxDevice
              (Fixture.tree Fixture.two_langs) (py "data") Fixture.two_langs
              [py "en"; py "fr"] fresh [] (IdStr (py "fixed"))
              (serialize
                 (DeviceInfo.mk (py "ModelA") (py "2.0") (py "en") (py "fr")
                    (py "1.0.0") (py "default") [] []))
              eq_refl eq_refl eq_refl (serving_fresh _ _))
    as [h [info [_ [H1 [_ [_ [_ [_ H2]]]]]]]]; [vm_compute; reflexivity|].
  exists info. split; [exact H1|]. apply H2; [cbn; lia|].
  repeat constructor; cbn; intuition discriminate.
Defined.

Lemma encode_raise_not_scalar s e :
  UTF8.encode s = Raise e ->
  e = UnicodeEncodeError /\ ~ Forall scalar_value s.
Proof.
  intro H. split.
  - unfold UTF8.encode in H. destruct (UTF8.encode_opt s); [discriminate|].
    now injection H.
  - intro Hs. destruct (encode_scalar s Hs) as [b Hb]. congruence.
Qed.

(** X13. For an identifier that is [None] or a [str]: without an
    identifier the hash is that of the random bytes and never fails; a
    returned hash lies in [0, 10^12); and the only exception is
    UnicodeEncodeError, raised for a string that holds a code point
    that is no Unicode scalar value (a lone surrogate). *)
Theorem hash_total_except_for_surrogates :
  forall (urandom : bytes) (text : option str),
    let u := match text with
             | None => IdNone
             | Some s => IdStr s
             end in
    _str_to_hash_id urandom IdNone
    = Ok (SHA1.be_value (SHA1.digest urandom) mod 10 ^ 12)
    /\ (forall h, _str_to_hash_id urandom u = Ok h -> 0 <= h < 10 ^ 12)
    /\ (forall e, _str_to_hash_id urandom u = Raise e ->
          e = UnicodeEncodeError
          /\ exists s, text = Some s /\ ~ Forall scalar_value s).
Proof.
  intros urandom text u.
  assert (F : forall b,
             (do n <- int16 (SHA1.hexdigest b); Ok (n mod 10 ^ 12))
             = Ok (SHA1.be_value (SHA1.digest b) mod 10 ^ 12))
    by (intro b; now rewrite int16_hexdigest).
  split; [exact (F urandom)|].
  assert (Hcases :
            (text = None /\ _str_to_hash_id urandom u
                            = Ok (SHA1.be_value (SHA1.digest urandom) mod 10 ^ 12))
            \/ exists s, text = Some s
                 /\ _str_to_hash_id urandom u
                    = (do b <- UTF8.encode s;
                       Ok (SHA1.be_value (SHA1.digest b) mod 10 ^ 12))).
  { subst u. destruct text as [s|].
    - right. exists s. split; [reflexivity|]. unfold _str_to_hash_id.
      destruct (UTF8.encode s); [apply F | reflexivity].
    - left. split; [reflexivity | exact (F urandom)]. }
  split.
  - intros h Hh. destruct Hcases as [[_ E]|[s [_ E]]]; rewrite E in Hh.
    + injection Hh as <-. apply Z.mod_pos_bound. lia.
    + destruct (UTF8.encode s); [|discriminate]. injection Hh as <-.
      apply Z.mod_pos_bound. lia.
  - intros e He. destruct Hcases as [[_ E]|[s [Ht E]]]; rewrite E in He;
      [discriminate|].
    destruct (UTF8.encode s) as [b|e'] eqn:Ee; [discriminate|].
    injection He as <-. destruct (encode_raise_not_scalar s e' Ee) as [-> Hn].
    split; [reflexivity|]. now exists s.
Qed.

Lemma hash_total_except_for_surrogates_witness :
  _str_to_hash_id [] (IdStr [0xD800]) = Raise UnicodeEncodeError
  /\ exists s, Some [0xD800] = Some s /\ ~ Forall scalar_value s.
Proof.
  destruct (hash_total_except_for_surrogates [] (Some [0xD800]))
    as [_ [_ H]].
  destruct (H UnicodeEncodeError eq_refl) as [_ H'].
  split; [reflexivity | exact H'].
Defined.

(** ** Catalogs of the other shape *)

(** X14. The flat branches iterate whatever the data file holds: given
    the dict-shaped catalog of iOS they pair the dict keys, the model
    identifiers with the major versions.  The iOS branch given lists
    calls [.items()] on them and raises AttributeError while the
    [DeviceList] is still empty, so every call tries again. *)
Theorem catalog_of_the_other_shape :
  forall cls fs s d,
    device_list s = [] ->
    fs (data_dir s) (file_name cls) = Parsed d ->
    (cls <> iOSDevice ->
     forall md vd,
       key_device_models d = Some (ModelDict md) ->
       key_system_versions d = Some (VersionDict vd) ->
       exists s1,
         _generate cls fs s = (Ok tt, s1)
         /\ map model_version (device_list s1)
            = list_prod (map fst md) (map fst vd))
    /\ (cls = iOSDevice ->
        forall ml,
          get (key_device_models d) (ModelList []) = ModelList ml ->
          exists s1,
            _generate cls fs s = (Raise AttributeError, s1)
            /\ device_list s1 = []).
Proof.
  intros cls fs s d Hl Hf. rewrite (_generate_parsed cls fs s d Hl Hf). split.
  - intros Hcls md vd Hm Hv. rewrite (generated_flat cls d s Hcls).
    eexists. split; [reflexivity|]. cbn [device_list set_device_list].
    rewrite model_version_entry, Hm, Hv. reflexivity.
  - intros -> ml Hm. unfold generated.
    set (s0 := set_device_list [] (loaded d s)).
    assert (E : device_models s0 = ModelList ml) by exact Hm.
    cbn [pairs]. rewrite E. now eexists.
Qed.

Lemma catalog_of_the_other_shape_witness :
  (exists s1,
      _generate LinuxDevice (Fixture.tree Fixture.ios) initial = (Ok tt, s1)
      /\ map model_version (device_list s1)
         = [(py "SE", py "15"); (py "12", py "15")])
  /\ exists s1,
       _generate iOSDevice (Fixture.tree Fixture.flat) initial
       = (Raise AttributeError, s1)
       /\ device_list s1 = [].
Proof.
  split.
  - assert (H : LinuxDevice <> iOSDevice) by discriminate.
    exact (proj1 (catalog_of_the_other_shape LinuxDevice
                    (Fixture.tree Fixture.ios) initial Fixture.ios
                    eq_refl eq_refl)
             H [(py "SE", [py ""]); (py "12", [py " Pro"])]
             [(py "15", [(py "0", [])])] eq_refl eq_refl).
  - exact (proj2 (catalog_of_the_other_shape iOSDevice
                    (Fixture.tree Fixture.flat) initial Fixture.flat
                    eq_refl eq_refl)
             eq_refl [py "ModelA"; py "ModelB"] eq_refl).
Defined.

Lemma clean_and_simplify_normal_form_witness :
  strip (_clean_and_simplify [32; 104; 105; 9; 10; 121; 111; 32])
  = _clean_and_simplify [32; 104; 105; 9; 10; 121; 111; 32].
Proof.
  exact (proj1 (proj2 (proj2 (proj2 (proj2
           (clean_and_simplify_normal_form
              [32; 104; 105; 9; 10; 121; 111; 32])))))).
Defined.
